(** * Telegram GPT bot: the per-user context buffer and its handlers

    A shallow embedding of [telegram_gpt_bot.py].  Python values are
    modelled as follows.

    - [str] is a sequence of Unicode code points: [list N].
    - [int] is [Z].
    - the global dict [user_context : Dict[int, deque]] is a [gmap Z deque]
      threaded through every function that touches it.
    - [collections.deque(maxlen=n)] is a record holding [maxlen] and the
      items, oldest first; [append] adds on the right and, when the size
      then exceeds [maxlen], pops on the left.
    - a dict [{"role": r, "content": c}] is a record [Turn].
    - calls to external services (OpenAI, the Telegram transport, ReportLab,
      the file system, the clock) read their outcome from an environment
      record; an outcome of [None] or [false] stands for a raised
      exception.
    - a handler is a function from the world before the update to the world
      it leaves behind, whether it returned or an exception escaped it. *)

From Stdlib Require Import ZArith NArith List Bool Lia String Ascii.
From Stdlib Require Import DecimalString DecimalPos DecimalZ.
From stdpp Require Import gmap list.

Local Open Scope nat_scope.

(** ** Python strings *)

Abbreviation pystr := (list N).

(** An ASCII literal as a Python string. *)
Definition py (s : string) : pystr :=
  map (fun a : ascii => N_of_ascii a) (list_ascii_of_string s).

(** [str(n)] and the [{n}] field of an f-string, for an [int]. *)
Definition str_of_int (n : Z) : pystr :=
  py (NilZero.string_of_int (Z.to_int n)).

Definition code_eqb (a b : N) : bool := N.eqb a b.

Fixpoint startswith (s p : pystr) : bool :=
  match p, s with
  | [], _ => true
  | _ :: _, [] => false
  | b :: p', a :: s' => code_eqb a b && startswith s' p'
  end.

(** [s.endswith(p)] *)
Definition endswith (s p : pystr) : bool :=
  startswith (rev s) (rev p).

(** [p in s] for two strings: [p] occurs in [s] as a contiguous run. *)
Fixpoint contains (s p : pystr) : bool :=
  startswith s p ||
  match s with
  | [] => false
  | _ :: s' => contains s' p
  end.

(** [s[:n]] *)
Definition slice_to (n : nat) (s : pystr) : pystr := take n s.

(** [str.isspace] on one code point: the code points Python treats as
    white space (bidirectional class WS, B or S, or category Zs). *)
Definition is_space (c : N) : bool :=
  ((9 <=? c) && (c <=? 13) || (28 <=? c) && (c <=? 32)
   || (c =? 133) || (c =? 160) || (c =? 5760)
   || (8192 <=? c) && (c <=? 8202)
   || (c =? 8232) || (c =? 8233) || (c =? 8239) || (c =? 8287)
   || (c =? 12288))%N.

Fixpoint lstrip (s : pystr) : pystr :=
  match s with
  | [] => []
  | c :: s' => if is_space c then lstrip s' else s
  end.

Definition rstrip (s : pystr) : pystr := rev (lstrip (rev s)).

(** [s.strip()] *)
Definition strip (s : pystr) : pystr := rstrip (lstrip s).

(** [str.splitlines] line boundaries: LF, VT, FF, CR, FS, GS, RS, NEL, LS,
    PS; a CR directly followed by LF is one boundary. *)
Definition is_linebreak (c : N) : bool :=
  ((10 <=? c) && (c <=? 13) || (28 <=? c) && (c <=? 30)
   || (c =? 133) || (c =? 8232) || (c =? 8233))%N.

Fixpoint splitlines_from (cur : pystr) (s : pystr) : list pystr :=
  match s with
  | [] => match cur with [] => [] | _ => [rev cur] end
  | c :: s' =>
      if is_linebreak c then
        if (c =? 13)%N then
          match s' with
          | c' :: s'' =>
              if (c' =? 10)%N then rev cur :: splitlines_from [] s''
              else rev cur :: splitlines_from [] s'
          | [] => rev cur :: splitlines_from [] s'
          end
        else rev cur :: splitlines_from [] s'
      else splitlines_from (c :: cur) s'
  end.

(** [s.splitlines()] *)
Definition splitlines (s : pystr) : list pystr := splitlines_from [] s.

(** [os.path.join(a, b)] on a POSIX system. *)
Definition path_join (a b : pystr) : pystr :=
  if startswith b (py "/") then b
  else if match a with [] => true | _ => endswith a (py "/") end then a ++ b
  else a ++ py "/" ++ b.

(** ** Turns and the bounded deque *)

Inductive Role := system | user | assistant.

Record Turn := mkTurn { role : Role; content : pystr }.

Record deque := Deque { maxlen : nat; items : list Turn }.

(** [deque(maxlen=n)] *)
Definition deque_new (n : nat) : deque := Deque n [].

(** [d.append(x)] *)
Definition deque_append (d : deque) (x : Turn) : deque :=
  let xs := items d ++ [x] in
  Deque (maxlen d) (if maxlen d <? length xs then tail xs else xs).

(** ** The context store

    The capacity literal of [ensure_context] is a section variable, so that
    the same code can be read at the program's capacity and at the small
    capacities used in scenarios. *)

Section ContextBuffer.

Variable cap : nat.

Definition ensure_context (uc : gmap Z deque) (uid : Z) : gmap Z deque :=
  match uc !! uid with
  | Some _ => uc
  | None => <[uid := deque_new cap]> uc
  end.

(** [ensure_context(uid); user_context[uid].append(t)] *)
Definition push_turn (uc : gmap Z deque) (uid : Z) (t : Turn) : gmap Z deque :=
  alter (fun d => deque_append d t) uid (ensure_context uc uid).

Definition push_user (uc : gmap Z deque) (uid : Z) (text : pystr) :=
  push_turn uc uid (mkTurn user text).

Definition push_assistant (uc : gmap Z deque) (uid : Z) (text : pystr) :=
  push_turn uc uid (mkTurn assistant text).

(** Every stored deque was made by [ensure_context] and respects its
    bound, as every Python deque does. *)
Definition bounded (uc : gmap Z deque) : Prop :=
  ∀ uid d, uc !! uid = Some d → maxlen d = cap ∧ length (items d) ≤ cap.

End ContextBuffer.

(** The capacity written in the source. *)
Definition CONTEXT_MAXLEN : nat := 24.

(** [list(user_context[uid])]; [None] is the [KeyError] of a missing key. *)
Definition snapshot (uc : gmap Z deque) (uid : Z) : option (list Turn) :=
  items <$> uc !! uid.

(** Calls into the context buffer, for reasoning about call sequences. *)
Inductive buffer_op :=
| Ensure (uid : Z)
| RecordUser (uid : Z) (text : pystr)
| RecordAssistant (uid : Z) (text : pystr).

Definition op_uid (op : buffer_op) : Z :=
  match op with
  | Ensure u | RecordUser u _ | RecordAssistant u _ => u
  end.

Definition run_op (cap : nat) (uc : gmap Z deque) (op : buffer_op) : gmap Z deque :=
  match op with
  | Ensure u => ensure_context cap uc u
  | RecordUser u text => push_user cap uc u text
  | RecordAssistant u text => push_assistant cap uc u text
  end.

Definition run_ops (cap : nat) (uc : gmap Z deque) (ops : list buffer_op) : gmap Z deque :=
  fold_left (run_op cap) ops uc.

(** The turns that a call sequence records for [uid], in call order. *)
Fixpoint turns_for (uid : Z) (ops : list buffer_op) : list Turn :=
  match ops with
  | [] => []
  | RecordUser u text :: ops' =>
      if decide (u = uid) then mkTurn user text :: turns_for uid ops'
      else turns_for uid ops'
  | RecordAssistant u text :: ops' =>
      if decide (u = uid) then mkTurn assistant text :: turns_for uid ops'
      else turns_for uid ops'
  | Ensure _ :: ops' => turns_for uid ops'
  end.

(** The last [n] elements of a list. *)
Definition last_n {A} (n : nat) (l : list A) : list A :=
  drop (length l - n) l.

(** The history of [uid], empty when the store has no entry. *)
Definition hist (uc : gmap Z deque) (uid : Z) : list Turn :=
  default [] (snapshot uc uid).

(** ** String constants of the source

    Non-ASCII literals are given by their code points; the comment shows
    the literal as it is written in the source. *)

(* "Bạn là trợ lý chuyên gia giám định bảo hiểm xe cơ giới cho Mr.P. "
   "Trả lời ngắn gọn, chính xác, hướng nghiệp vụ. Khi cần báo cáo, tạo PDF tóm tắt." *)
Definition SYSTEM_PROMPT : pystr :=
  [66; 7841; 110; 32; 108; 224; 32; 116; 114; 7907; 32; 108; 253; 32; 99;
   104; 117; 121; 234; 110; 32; 103; 105; 97; 32; 103; 105; 225; 109; 32;
   273; 7883; 110; 104; 32; 98; 7843; 111; 32; 104; 105; 7875; 109; 32; 120;
   101; 32; 99; 417; 32; 103; 105; 7899; 105; 32; 99; 104; 111; 32; 77; 114;
   46; 80; 46; 32; 84; 114; 7843; 32; 108; 7901; 105; 32; 110; 103; 7855;
   110; 32; 103; 7885; 110; 44; 32; 99; 104; 237; 110; 104; 32; 120; 225;
   99; 44; 32; 104; 432; 7899; 110; 103; 32; 110; 103; 104; 105; 7879; 112;
   32; 118; 7909; 46; 32; 75; 104; 105; 32; 99; 7847; 110; 32; 98; 225; 111;
   32; 99; 225; 111; 44; 32; 116; 7841; 111; 32; 80; 68; 70; 32; 116; 243;
   109; 32; 116; 7855; 116; 46]%N.

(* "Chào, tôi là trợ lý giám định. Gửi ảnh/biên bản để tôi phân tích." *)
Definition START_REPLY : pystr :=
  [67; 104; 224; 111; 44; 32; 116; 244; 105; 32; 108; 224; 32; 116; 114;
   7907; 32; 108; 253; 32; 103; 105; 225; 109; 32; 273; 7883; 110; 104; 46;
   32; 71; 7917; 105; 32; 7843; 110; 104; 47; 98; 105; 234; 110; 32; 98;
   7843; 110; 32; 273; 7875; 32; 116; 244; 105; 32; 112; 104; 226; 110; 32;
   116; 237; 99; 104; 46]%N.

(* "Ảnh đã lưu. Mô tả thêm hoàn cảnh để tôi phân tích." *)
Definition PHOTO_SAVED_REPLY : pystr :=
  [7842; 110; 104; 32; 273; 227; 32; 108; 432; 117; 46; 32; 77; 244; 32;
   116; 7843; 32; 116; 104; 234; 109; 32; 104; 111; 224; 110; 32; 99; 7843;
   110; 104; 32; 273; 7875; 32; 116; 244; 105; 32; 112; 104; 226; 110; 32;
   116; 237; 99; 104; 46]%N.

(* f"Tài liệu {fname} đã lưu." *)
Definition DOC_SAVED_REPLY (fname : pystr) : pystr :=
  [84; 224; 105; 32; 108; 105; 7879; 117; 32]%N ++ fname
  ++ [32; 273; 227; 32; 108; 432; 117; 46]%N.

(* "Bắt đầu trích xuất nội dung PDF (nếu cấu hình)." *)
Definition PDF_PARSE_REPLY : pystr :=
  [66; 7855; 116; 32; 273; 7847; 117; 32; 116; 114; 237; 99; 104; 32; 120;
   117; 7845; 116; 32; 110; 7897; 105; 32; 100; 117; 110; 103; 32; 80; 68;
   70; 32; 40; 110; 7871; 117; 32; 99; 7845; 117; 32; 104; 236; 110; 104;
   41; 46]%N.

(* "Lỗi khi kết nối OpenAI." *)
Definition OPENAI_ERROR_REPLY : pystr :=
  [76; 7895; 105; 32; 107; 104; 105; 32; 107; 7871; 116; 32; 110; 7889;
   105; 32; 79; 112; 101; 110; 65; 73; 46]%N.

(* "tạo báo cáo" *)
Definition MARKER_CREATE_REPORT : pystr :=
  [116; 7841; 111; 32; 98; 225; 111; 32; 99; 225; 111]%N.

(* "báo cáo" *)
Definition MARKER_REPORT : pystr := [98; 225; 111; 32; 99; 225; 111]%N.

(* f"Báo cáo đã tạo: {report_path}" *)
Definition REPORT_CREATED_REPLY (report_path : pystr) : pystr :=
  [66; 225; 111; 32; 99; 225; 111; 32; 273; 227; 32; 116; 7841; 111; 58;
   32]%N ++ report_path.

(* "Báo cáo giám định - GIC Assistant" *)
Definition PDF_TITLE : pystr :=
  [66; 225; 111; 32; 99; 225; 111; 32; 103; 105; 225; 109; 32; 273; 7883;
   110; 104; 32; 45; 32; 71; 73; 67; 32; 65; 115; 115; 105; 115; 116; 97;
   110; 116]%N.

(* f"Người dùng: {uid}" *)
Definition USER_LINE (uid : Z) : pystr :=
  [78; 103; 432; 7901; 105; 32; 100; 249; 110; 103; 58; 32]%N
  ++ str_of_int uid.

(* "Nội dung yêu cầu:" *)
Definition PDF_REQUEST_HEADING : pystr :=
  [78; 7897; 105; 32; 100; 117; 110; 103; 32; 121; 234; 117; 32; 99; 7847;
   117; 58]%N.

(* "Phân tích:" *)
Definition ANALYSIS_HEADING : pystr :=
  [80; 104; 226; 110; 32; 116; 237; 99; 104; 58]%N.

(* The two characters written in the source as a doubled backslash
   followed by n: a backslash and the letter n. *)
Definition BACKSLASH_N : pystr := [92; 110]%N.

(* "Báo cáo giám định" *)
Definition TXT_TITLE : pystr :=
  [66; 225; 111; 32; 99; 225; 111; 32; 103; 105; 225; 109; 32; 273; 7883;
   110; 104]%N.

(* "Yêu cầu:" *)
Definition TXT_REQUEST_HEADING : pystr :=
  [89; 234; 117; 32; 99; 7847; 117; 58]%N.

(** ** The environment of one handler call *)

Inductive canvas_op :=
| SetFont (name : pystr) (size : Z)
| DrawString (x y : Z) (s : pystr)
| ShowPage
| Save.

Inductive file_content :=
| Downloaded (remote_path : pystr)
| PdfDocument (ops : list canvas_op)
| TextFile (s : pystr).

(** The outcome of opening a text file and writing to it: done, or an
    exception, after which the file is absent ([None]) or holds what had
    been written by then. *)
Inductive write_result :=
| Written
| WriteRaised (left_behind : option pystr).

(** Outcomes of the external calls.  [None] and [false] mean that the call
    raised. *)
Record Env := {
  MEDIA_DIR : pystr;
  (* int(time.time()) *)
  now : Z;
  (* resp["choices"][0]["message"]["content"] of
     openai.ChatCompletion.create(model, messages, temperature) *)
  chat_completion : list Turn → option pystr;
  (* whether the ReportLab block of generate_pdf_report runs to the end *)
  render_pdf : pystr → list canvas_op → bool;
  (* bot.get_file(file_id).file_path *)
  get_file : pystr → option pystr;
  (* whether bot.download_file(path, local) returns *)
  download_file : pystr → pystr → bool;
  (* whether os.makedirs(dir, exist_ok=True) returns, for a non-empty dir *)
  makedirs_ok : pystr → bool;
  (* whether bot.reply_to(m, text) returns *)
  reply_ok : pystr → bool;
  (* open(path, "w", encoding="utf-8") and the writes of the content *)
  write_text : pystr → pystr → write_result
}.

(** [os.makedirs(dir, exist_ok=True)]: raises for the empty path, and
    otherwise as the file system decides. *)
Definition makedirs (e : Env) (dir : pystr) : bool :=
  match dir with
  | [] => false
  | _ => makedirs_ok e dir
  end.

(** The state a handler reads and writes: the context store, the replies
    handed to [bot.reply_to] so far, the files written so far, the
    inference requests issued so far and the logged exceptions. *)
Record World := {
  user_context : gmap Z deque;
  outbox : list pystr;
  files : list (pystr * file_content);
  requests : list (list Turn);
  errlog : list pystr
}.

Definition initial_world : World :=
  {| user_context := ∅; outbox := []; files := []; requests := [];
     errlog := [] |}.

Definition set_context (w : World) (uc : gmap Z deque) : World :=
  {| user_context := uc; outbox := outbox w; files := files w;
     requests := requests w; errlog := errlog w |}.

(** [bot.reply_to(m, s)] *)
Definition reply_to (w : World) (s : pystr) : World :=
  {| user_context := user_context w; outbox := outbox w ++ [s];
     files := files w; requests := requests w; errlog := errlog w |}.

Definition write_file (w : World) (path : pystr) (c : file_content) : World :=
  {| user_context := user_context w; outbox := outbox w;
     files := files w ++ [(path, c)]; requests := requests w;
     errlog := errlog w |}.

Definition send_request (w : World) (messages : list Turn) : World :=
  {| user_context := user_context w; outbox := outbox w; files := files w;
     requests := requests w ++ [messages]; errlog := errlog w |}.

(** [logger.exception(s)] *)
Definition log_exception (w : World) (s : pystr) : World :=
  {| user_context := user_context w; outbox := outbox w; files := files w;
     requests := requests w; errlog := errlog w ++ [s] |}.

Record TextMsg := { t_uid : Z; t_text : pystr }.
(* [p_file_id] is m.photo[-1].file_id *)
Record PhotoMsg := { p_uid : Z; p_file_id : pystr }.
(* [d_file_name] is m.document.file_name, which may be None *)
Record DocMsg := {
  d_uid : Z; d_file_id : pystr; d_file_name : option pystr
}.

(** The file name as an f-string formats it. *)
Definition doc_name (m : DocMsg) : pystr :=
  match d_file_name m with
  | Some fname => fname
  | None => py "None"
  end.

(** ** The report *)

(** The loop over the lines of the assistant text. *)
Fixpoint draw_lines (y : Z) (lines : list pystr) : list canvas_op :=
  match lines with
  | [] => []
  | line :: rest =>
      DrawString 60 y (slice_to 120 line) ::
      (let y' := (y - 14)%Z in
       if (y' <? 100)%Z then ShowPage :: draw_lines 800 rest
       else draw_lines y' rest)
  end.

(** The calls made on the canvas inside the [try] block. *)
Definition report_canvas (uid : Z) (query_text assistant_text : pystr)
  : list canvas_op :=
  [ SetFont (py "Helvetica") 12;
    DrawString 50 800 PDF_TITLE;
    DrawString 50 780 (USER_LINE uid);
    DrawString 50 760 PDF_REQUEST_HEADING;
    DrawString 60 740 (slice_to 1000 query_text);
    DrawString 50 700 ANALYSIS_HEADING ]
  ++ draw_lines 680 (splitlines assistant_text)
  ++ [ShowPage; Save].

(** What the [except] block writes, in order. *)
Definition report_fallback_text (uid : Z) (query_text assistant_text : pystr)
  : pystr :=
  (TXT_TITLE ++ BACKSLASH_N ++ BACKSLASH_N)
  ++ (USER_LINE uid ++ BACKSLASH_N ++ BACKSLASH_N)
  ++ (TXT_REQUEST_HEADING ++ BACKSLASH_N)
  ++ (query_text ++ BACKSLASH_N ++ BACKSLASH_N)
  ++ (ANALYSIS_HEADING ++ BACKSLASH_N)
  ++ (assistant_text ++ BACKSLASH_N).

Definition report_pdf_path (e : Env) (uid : Z) : pystr :=
  path_join (MEDIA_DIR e)
    (py "report_" ++ str_of_int uid ++ py "_" ++ str_of_int (now e)
     ++ py ".pdf").

(** The result is the returned path, or [None] when an exception escapes
    (from [os.makedirs], which precedes the [try], or from the [except]
    block), together with the world left behind. *)
Definition generate_pdf_report (e : Env) (w : World) (uid : Z)
    (query_text assistant_text : pystr) : option pystr * World :=
  if makedirs e (MEDIA_DIR e) then
    let pdf_path := report_pdf_path e uid in
    let ops := report_canvas uid query_text assistant_text in
    if render_pdf e pdf_path ops then
      (Some pdf_path, write_file w pdf_path (PdfDocument ops))
    else
      let txt_path := pdf_path ++ py ".txt" in
      let content := report_fallback_text uid query_text assistant_text in
      match write_text e txt_path content with
      | Written => (Some txt_path, write_file w txt_path (TextFile content))
      | WriteRaised (Some part) =>
          (None, write_file w txt_path (TextFile part))
      | WriteRaised None => (None, w)
      end
  else (None, w).

(** The strings drawn on the canvas, in drawing order. *)
Definition canvas_text (ops : list canvas_op) : list pystr :=
  omap (fun op => match op with DrawString _ _ s => Some s | _ => None end)
       ops.

(** ** Handlers

    [lower] stands for Python's [str.lower], whose Unicode case tables are
    not part of the program. *)

Section Handlers.

Variable lower : pystr → pystr.

Definition cmd_start (w : World) (uid : Z) : World :=
  reply_to (set_context w (ensure_context CONTEXT_MAXLEN (user_context w) uid))
           START_REPLY.

Definition photo_local_path (e : Env) (m : PhotoMsg) : pystr :=
  path_join (MEDIA_DIR e)
    (str_of_int (p_uid m) ++ py "_" ++ p_file_id m ++ py ".jpg").

Definition handle_photo (e : Env) (w : World) (m : PhotoMsg) : World :=
  let uid := p_uid m in
  match get_file e (p_file_id m) with
  | None => w
  | Some path =>
      if makedirs e (MEDIA_DIR e) then
        let local := photo_local_path e m in
        if download_file e path local then
          let w1 := write_file w local (Downloaded path) in
          let w2 := reply_to w1 PHOTO_SAVED_REPLY in
          if reply_ok e PHOTO_SAVED_REPLY then
            set_context w2
              (push_user CONTEXT_MAXLEN (user_context w2) uid
                 (py "[image:" ++ local ++ py "]"))
          else w2
        else w
      else w
  end.

Definition doc_local_path (e : Env) (m : DocMsg) : pystr :=
  path_join (MEDIA_DIR e)
    (str_of_int (d_uid m) ++ py "_" ++ d_file_id m ++ py "_"
     ++ doc_name m).

Definition handle_document (e : Env) (w : World) (m : DocMsg) : World :=
  let uid := d_uid m in
  match get_file e (d_file_id m) with
  | None => w
  | Some path =>
      if makedirs e (MEDIA_DIR e) then
        let local := doc_local_path e m in
        if download_file e path local then
          let w1 := write_file w local (Downloaded path) in
          let w2 := reply_to w1 (DOC_SAVED_REPLY (doc_name m)) in
          if reply_ok e (DOC_SAVED_REPLY (doc_name m)) then
            match d_file_name m with
            | None => w2 (* AttributeError: None has no lower *)
            | Some fname =>
                if endswith (lower fname) (py ".pdf") then
                  let w3 := reply_to w2 PDF_PARSE_REPLY in
                  if reply_ok e PDF_PARSE_REPLY then
                    set_context w3
                      (push_user CONTEXT_MAXLEN (user_context w3) uid
                         (py "[pdf:" ++ local ++ py "]"))
                  else w3
                else w2
            end
          else w2
        else w
      else w
  end.

(** The test that selects the report branch. *)
Definition wants_report (text : pystr) : bool :=
  contains (lower text) MARKER_CREATE_REPORT
  || contains (lower text) MARKER_REPORT.

Definition handle_text (e : Env) (w : World) (m : TextMsg) : World :=
  let uid := t_uid m in
  let text := strip (t_text m) in
  let w1 := set_context w (push_user CONTEXT_MAXLEN (user_context w) uid text) in
  match snapshot (user_context w1) uid with
  | None => w1 (* KeyError; never taken, see [dispatch_snapshot] *)
  | Some history =>
      let messages := mkTurn system SYSTEM_PROMPT :: history in
      let w2 := send_request w1 messages in
      match chat_completion e messages with
      | None =>
          reply_to (log_exception w2 (py "OpenAI error")) OPENAI_ERROR_REPLY
      | Some raw =>
          let assistant_text := strip raw in
          let w3 :=
            set_context w2
              (push_assistant CONTEXT_MAXLEN (user_context w2) uid
                 assistant_text) in
          if wants_report text then
            let '(returned, w4) :=
              generate_pdf_report e w3 uid text assistant_text in
            match returned with
            | Some report_path =>
                reply_to w4 (REPORT_CREATED_REPLY report_path)
            | None => w4
            end
          else reply_to w3 assistant_text
      end
  end.

End Handlers.

(** The context store right after [handle_text] has recorded the inbound
    text, and the request it then sends. *)
Definition context_at_dispatch (w : World) (m : TextMsg) : gmap Z deque :=
  push_user CONTEXT_MAXLEN (user_context w) (t_uid m) (strip (t_text m)).

Definition request_payload (w : World) (m : TextMsg) : list Turn :=
  mkTurn system SYSTEM_PROMPT :: hist (context_at_dispatch w m) (t_uid m).

(** A lower-casing function that is exact on ASCII text and leaves every
    other code point alone; it agrees with [str.lower] on text whose
    non-ASCII letters are already lower case.  Used to run the handlers on
    concrete inputs. *)
Definition lower_ascii (s : pystr) : pystr :=
  map (fun c => if ((65 <=? c) && (c <=? 90))%N then (c + 32)%N else c) s.

(** ** Startup *)

Record StartupEnv := {
  (* os.environ *)
  getenv : pystr → option pystr;
  (* whether the unguarded imports of telebot and openai succeed *)
  core_importable : bool;
  (* whether telebot.TeleBot(token, parse_mode="HTML") returns *)
  telebot_init : pystr → bool;
  (* whether the sqlalchemy imports succeed *)
  sqlalchemy_importable : bool;
  (* whether create_engine, sessionmaker, declarative_base, the class
     statement and Base.metadata.create_all all return *)
  database_init : pystr → bool
}.

Inductive startup_result :=
| Started (media_dir : pystr) (db_enabled : bool)
| ImportFailed
| CredentialsError
| BotInitError
| DatabaseError.

(** Truth value of the result of [os.getenv]. *)
Definition truthy (o : option pystr) : bool :=
  match o with
  | Some (_ :: _) => true
  | _ => false
  end.

(** The module body, up to the point where the handlers are registered. *)
Definition startup (e : StartupEnv) : startup_result :=
  let TELEGRAM_TOKEN := getenv e (py "TELEGRAM_BOT_TOKEN") in
  let OPENAI_API_KEY := getenv e (py "OPENAI_API_KEY") in
  let media_dir := default (py "/tmp/telegram_media") (getenv e (py "MEDIA_DIR")) in
  if negb (core_importable e) then ImportFailed
  else if negb (truthy TELEGRAM_TOKEN) || negb (truthy OPENAI_API_KEY) then
    CredentialsError
  else if negb (telebot_init e (default [] TELEGRAM_TOKEN)) then BotInitError
  else if sqlalchemy_importable e then
    match getenv e (py "DATABASE_URL") with
    | Some (c :: url) =>
        if database_init e (c :: url) then Started media_dir true
        else DatabaseError
    | _ => Started media_dir false
    end
  else Started media_dir false.

Definition aborted (r : startup_result) : bool :=
  match r with
  | Started _ _ => false
  | _ => true
  end.

(** ** Derived notions used in the statements *)

(* "tạo báo cáo xe" *)
Definition SCENARIO_TEXT : pystr :=
  [116; 7841; 111; 32; 98; 225; 111; 32; 99; 225; 111; 32; 120; 101]%N.

(* "  Báo cáo nhanh " *)
Definition UPPER_SCENARIO_TEXT : pystr :=
  [32; 32; 66; 225; 111; 32; 99; 225; 111; 32; 110; 104; 97; 110; 104; 32]%N.

(** The world in which the reply is produced when the inference call
    returns [raw]. *)
Definition after_reply (w : World) (m : TextMsg) (raw : pystr) : World :=
  set_context
    (send_request (set_context w (context_at_dispatch w m))
       (request_payload w m))
    (push_assistant CONTEXT_MAXLEN (context_at_dispatch w m) (t_uid m)
       (strip raw)).

(** What [handle_text] does with the outcome of [generate_pdf_report]: the
    notice with the returned path, or nothing when the exception escapes. *)
Definition finish_report (r : option pystr * World) : World :=
  match r.1 with
  | Some report_path => reply_to r.2 (REPORT_CREATED_REPLY report_path)
  | None => r.2
  end.

(** The replies that [finish_report] adds. *)
Definition report_replies (returned : option pystr) : list pystr :=
  match returned with
  | Some report_path => [REPORT_CREATED_REPLY report_path]
  | None => []
  end.

(** [p] occurs in [s] as a contiguous run; the relation [contains] decides. *)
Definition substring (p s : pystr) : Prop := ∃ l r, s = l ++ p ++ r.

(** The variable is unset, or set to the empty string. *)
Definition absent_or_empty (o : option pystr) : Prop := o = None ∨ o = Some [].

(** A lower-casing function leaves surrounding white space alone: the white
    space stays and the text between is lower-cased as it is on its own.
    [str.lower] does, and so does [lower_ascii]. *)
Definition keeps_outer_space (lower : pystr → pystr) : Prop :=
  ∀ ws1 s ws2,
    Forall (fun c => is_space c = true) ws1 →
    Forall (fun c => is_space c = true) ws2 →
    lower (ws1 ++ s ++ ws2) = ws1 ++ lower s ++ ws2.

(** ** Concrete environments *)

(** An environment in which every external call fails. *)
Definition env_all_fail : Env :=
  {| MEDIA_DIR := py "/tmp/telegram_media"; now := 0;
     chat_completion := fun _ => None;
     render_pdf := fun _ _ => false;
     get_file := fun _ => None;
     download_file := fun _ _ => false;
     makedirs_ok := fun _ => false;
     reply_ok := fun _ => false;
     write_text := fun _ _ => WriteRaised None |}.

(** An environment in which every external call succeeds; the inference
    service answers "ok". *)
Definition env_all_ok : Env :=
  {| MEDIA_DIR := py "/tmp/telegram_media"; now := 1700000000;
     chat_completion := fun _ => Some (py "ok");
     render_pdf := fun _ _ => true;
     get_file := fun f => Some (py "photos/" ++ f);
     download_file := fun _ _ => true;
     makedirs_ok := fun _ => true;
     reply_ok := fun _ => true;
     write_text := fun _ _ => Written |}.

(** An environment in which the inference call succeeds and the renderer
    fails. *)
Definition env_no_reportlab : Env :=
  {| MEDIA_DIR := py "/tmp/telegram_media"; now := 1700000000;
     chat_completion := fun _ => Some (py "ok");
     render_pdf := fun _ _ => false;
     get_file := fun f => Some (py "photos/" ++ f);
     download_file := fun _ _ => true;
     makedirs_ok := fun _ => true;
     reply_ok := fun _ => true;
     write_text := fun _ _ => Written |}.

(** An environment like [env_all_ok] with MEDIA_DIR set to the empty
    string. *)
Definition env_empty_media_dir : Env :=
  {| MEDIA_DIR := []; now := 1700000000;
     chat_completion := fun _ => Some (py "ok");
     render_pdf := fun _ _ => true;
     get_file := fun f => Some (py "photos/" ++ f);
     download_file := fun _ _ => true;
     makedirs_ok := fun _ => true;
     reply_ok := fun _ => true;
     write_text := fun _ _ => Written |}.

(** An environment in which the renderer fails and the text file cannot be
    written either. *)
Definition env_no_report_at_all : Env :=
  {| MEDIA_DIR := py "/tmp/telegram_media"; now := 1700000000;
     chat_completion := fun _ => Some (py "ok");
     render_pdf := fun _ _ => false;
     get_file := fun f => Some (py "photos/" ++ f);
     download_file := fun _ _ => true;
     makedirs_ok := fun _ => true;
     reply_ok := fun _ => true;
     write_text := fun _ _ => WriteRaised None |}.

(** An environment with no variable set. *)
Definition env_unset : StartupEnv :=
  {| getenv := fun _ => None;
     core_importable := true;
     telebot_init := fun _ => true;
     sqlalchemy_importable := false;
     database_init := fun _ => true |}.

(** An environment with both credentials and a database URL set, in which
    SQLAlchemy is installed and the database cannot be initialised. *)
Definition env_database_down : StartupEnv :=
  {| getenv := fun k =>
       if decide (k = py "TELEGRAM_BOT_TOKEN") then Some (py "123:abc")
       else if decide (k = py "OPENAI_API_KEY") then Some (py "sk-test")
       else if decide (k = py "DATABASE_URL")
            then Some (py "postgresql://u:p@db:5432/cases")
       else None;
     core_importable := true;
     telebot_init := fun _ => true;
     sqlalchemy_importable := true;
     database_init := fun _ => false |}.

(** An environment with both credentials set in which the bot object cannot
    be built from the token. *)
Definition env_bad_token : StartupEnv :=
  {| getenv := fun k =>
       if decide (k = py "TELEGRAM_BOT_TOKEN") then Some (py "abc")
       else if decide (k = py "OPENAI_API_KEY") then Some (py "sk-test")
       else None;
     core_importable := true;
     telebot_init := fun _ => false;
     sqlalchemy_importable := false;
     database_init := fun _ => true |}.

(** ** The new-case command *)

(** [s.split()]: the maximal runs of non-white-space characters. *)
Fixpoint py_split_from (cur : pystr) (s : pystr) : list pystr :=
  match s with
  | [] => match cur with [] => [] | _ => [rev cur] end
  | c :: s' =>
      if is_space c then
        match cur with
        | [] => py_split_from [] s'
        | _ => rev cur :: py_split_from [] s'
        end
      else py_split_from (c :: cur) s'
  end.

Definition py_split (s : pystr) : list pystr := py_split_from [] s.

(** [sep.join(l)] *)
Fixpoint py_join (sep : pystr) (l : list pystr) : pystr :=
  match l with
  | [] => []
  | x :: rest =>
      match rest with
      | [] => x
      | _ => x ++ sep ++ py_join sep rest
      end
  end.

(* f"Vụ {int(time.time())}" *)
Definition DEFAULT_TITLE (now : Z) : pystr :=
  [86; 7909; 32]%N ++ str_of_int now.

(* f"Tạo vụ việc #{c.id} - {title}" *)
Definition NEWCASE_DB_REPLY (id : Z) (title : pystr) : pystr :=
  [84; 7841; 111; 32; 118; 7909; 32; 118; 105; 7879; 99; 32; 35]%N
  ++ str_of_int id ++ py " - " ++ title.

(* f"Tạo vụ việc (local) - {title}" *)
Definition NEWCASE_LOCAL_REPLY (title : pystr) : pystr :=
  [84; 7841; 111; 32; 118; 7909; 32; 118; 105; 7879; 99; 32; 40; 108; 111;
   99; 97; 108; 41; 32; 45; 32]%N ++ title.

(** A row of the table [cases], without the key the database assigns. *)
Record Case := {
  tg_user : pystr;
  title : pystr;
  description : pystr;
  media_path : pystr;
  report_pdf : pystr;
  created_at : Z
}.

(** What [cmd_newcase] reads from outside: the clock, and the session
    factory, [None] when no database is configured. A session takes the
    row through add, commit and refresh and gives the assigned id, or
    [None] when one of them raises. *)
Record CaseEnv := {
  (* int(time.time()) *)
  case_time : Z;
  (* datetime.utcnow() *)
  case_utcnow : Z;
  SessionLocal : option (Case → option Z)
}.

(** The two assignments that compute the title. *)
Definition newcase_title (now : Z) (text : pystr) : pystr :=
  let text' :=
    if 1 <? length (py_split text) then py_join (py " ") (tail (py_split text))
    else [] in
  match text' with
  | [] => DEFAULT_TITLE now
  | _ => text'
  end.

Definition cmd_newcase (e : CaseEnv) (w : World) (m : TextMsg)
  : World * option (Z * Case) :=
  let uid := t_uid m in
  let title := newcase_title (case_time e) (t_text m) in
  match SessionLocal e with
  | Some session =>
      let c := {| tg_user := str_of_int uid; title := title;
                  description := []; media_path := []; report_pdf := [];
                  created_at := case_utcnow e |} in
      match session c with
      | Some id => (reply_to w (NEWCASE_DB_REPLY id title), Some (id, c))
      | None => (w, None)
      end
  | None => (reply_to w (NEWCASE_LOCAL_REPLY title), None)
  end.

(** ** Updates

    One update of the transport, with the outcomes of the external calls
    made while it is handled, and the dispatch to its handler. *)
Inductive event :=
| EvStart (uid : Z)
| EvNewcase (e : CaseEnv) (m : TextMsg)
| EvPhoto (e : Env) (m : PhotoMsg)
| EvDocument (e : Env) (m : DocMsg)
| EvText (e : Env) (m : TextMsg).

(** [m.from_user.id] *)
Definition event_uid (ev : event) : Z :=
  match ev with
  | EvStart uid => uid
  | EvNewcase _ m => t_uid m
  | EvPhoto _ m => p_uid m
  | EvDocument _ m => d_uid m
  | EvText _ m => t_uid m
  end.

Definition handle_event (lower : pystr → pystr) (w : World) (ev : event)
  : World :=
  match ev with
  | EvStart uid => cmd_start w uid
  | EvNewcase e m => (cmd_newcase e w m).1
  | EvPhoto e m => handle_photo e w m
  | EvDocument e m => handle_document lower e w m
  | EvText e m => handle_text lower e w m
  end.

Definition run_events (lower : pystr → pystr) (w : World) (evs : list event)
  : World :=
  fold_left (handle_event lower) evs w.

(** A non-empty string without white space. *)
Definition is_word (w : pystr) : Prop :=
  w ≠ [] ∧ Forall (fun c => is_space c = false) w.

(** The number of text updates in a list of updates. *)
Definition count_texts (evs : list event) : nat :=
  length (omap (fun ev => match ev with EvText _ _ => Some tt | _ => None end)
            evs).

(** The row that [cmd_newcase] hands to the session. *)
Definition newcase_row (e : CaseEnv) (m : TextMsg) : Case :=
  {| tg_user := str_of_int (t_uid m);
     title := newcase_title (case_time e) (t_text m);
     description := []; media_path := []; report_pdf := [];
     created_at := case_utcnow e |}.

(** No stored turn has the role system. *)
Definition dialogue_only (uc : gmap Z deque) : Prop :=
  ∀ uid d, uc !! uid = Some d → Forall (fun t => role t ≠ system) (items d).

(** The y coordinates at which a list of canvas calls draws. *)
Definition canvas_heights (ops : list canvas_op) : list Z :=
  omap (fun op => match op with DrawString _ y _ => Some y | _ => None end)
       ops.

(** The number of page breaks in a list of canvas calls. *)
Definition page_breaks (ops : list canvas_op) : nat :=
  length (omap (fun op => match op with ShowPage => Some tt | _ => None end)
            ops).

(** A decimal digit or the minus sign. *)
Definition is_int_char (c : N) : bool :=
  ((48 <=? c) && (c <=? 57) || (c =? 45))%N.

(** ** Facts about the bounded deque and the store *)

Lemma last_n_length {A} (n : nat) (l : list A) :
  length (last_n n l) = Nat.min n (length l).
Proof. unfold last_n. rewrite length_drop. lia. Qed.

Lemma last_n_all {A} (n : nat) (l : list A) :
  length l ≤ n → last_n n l = l.
Proof.
  intros Hle. unfold last_n.
  replace (length l - n) with 0 by lia. reflexivity.
Qed.

Lemma last_n_app_absorb {A} (n : nat) (a b : list A) :
  last_n n (last_n n a ++ b) = last_n n (a ++ b).
Proof.
  destruct (decide (length a ≤ n)) as [Hle | Hgt].
  - by rewrite (last_n_all n a).
  - pose proof (last_n_length n a) as Hl.
    unfold last_n at 1 3. rewrite !length_app, Hl, !drop_app, Hl.
    unfold last_n. rewrite drop_drop.
    f_equal; f_equal; lia.
Qed.

Lemma last_n_succ_tail {A} (n : nat) (l : list A) :
  length l = S n → last_n n l = tail l.
Proof.
  intros Hlen. unfold last_n. rewrite Hlen.
  replace (S n - n) with 1 by lia.
  destruct l; reflexivity.
Qed.

Lemma deque_append_items (d : deque) (x : Turn) :
  length (items d) ≤ maxlen d →
  items (deque_append d x) = last_n (maxlen d) (items d ++ [x]).
Proof.
  intros Hle. unfold deque_append. cbn [items].
  destruct (Nat.ltb_spec (maxlen d) (length (items d ++ [x]))) as [Hlt | Hge].
  - rewrite length_app in Hlt. cbn in Hlt.
    symmetry. apply last_n_succ_tail. rewrite length_app. cbn. lia.
  - symmetry. by apply last_n_all.
Qed.

Lemma deque_append_maxlen (d : deque) (x : Turn) :
  maxlen (deque_append d x) = maxlen d.
Proof. reflexivity. Qed.

Lemma ensure_context_lookup cap (uc : gmap Z deque) (uid : Z) :
  ensure_context cap uc uid !! uid
  = Some (default (deque_new cap) (uc !! uid)).
Proof.
  unfold ensure_context. destruct (uc !! uid) as [d|] eqn:E.
  - by rewrite E.
  - by rewrite lookup_insert_eq.
Qed.

Lemma ensure_context_other cap (uc : gmap Z deque) (u v : Z) :
  u ≠ v → ensure_context cap uc u !! v = uc !! v.
Proof.
  intros Hne. unfold ensure_context.
  destruct (uc !! u); [done | by rewrite lookup_insert_ne].
Qed.

Lemma push_turn_lookup cap (uc : gmap Z deque) (uid : Z) (t : Turn) :
  push_turn cap uc uid t !! uid
  = Some (deque_append (default (deque_new cap) (uc !! uid)) t).
Proof.
  unfold push_turn. rewrite lookup_alter_eq, ensure_context_lookup.
  reflexivity.
Qed.

Lemma push_turn_other cap (uc : gmap Z deque) (u v : Z) (t : Turn) :
  u ≠ v → push_turn cap uc u t !! v = uc !! v.
Proof.
  intros Hne. unfold push_turn.
  rewrite lookup_alter_ne by done. by apply ensure_context_other.
Qed.

Lemma run_op_other cap (uc : gmap Z deque) (op : buffer_op) (v : Z) :
  op_uid op ≠ v → run_op cap uc op !! v = uc !! v.
Proof.
  destruct op; cbn; intros Hne.
  - by apply ensure_context_other.
  - by apply push_turn_other.
  - by apply push_turn_other.
Qed.

Lemma run_ops_other cap (ops : list buffer_op) (uc : gmap Z deque) (v : Z) :
  Forall (fun op => op_uid op ≠ v) ops →
  run_ops cap uc ops !! v = uc !! v.
Proof.
  revert uc. induction ops as [|op ops IH]; intros uc Hall; [done|].
  inversion Hall as [|? ? Hop Hrest]; subst. cbn.
  unfold run_ops in IH. rewrite IH by done. by apply run_op_other.
Qed.

Lemma bounded_empty cap : bounded cap ∅.
Proof. intros uid d H. by rewrite lookup_empty in H. Qed.

Lemma bounded_ensure cap (uc : gmap Z deque) (uid : Z) :
  bounded cap uc → bounded cap (ensure_context cap uc uid).
Proof.
  intros Hb v d Hv. destruct (decide (uid = v)) as [->|Hne].
  - rewrite ensure_context_lookup in Hv. injection Hv as <-.
    destruct (uc !! v) as [d'|] eqn:E; cbn.
    + by apply (Hb v).
    + split; [done | lia].
  - rewrite ensure_context_other in Hv by done. by apply (Hb v).
Qed.

Lemma bounded_default cap (uc : gmap Z deque) (uid : Z) :
  bounded cap uc →
  maxlen (default (deque_new cap) (uc !! uid)) = cap
  ∧ length (items (default (deque_new cap) (uc !! uid))) ≤ cap.
Proof.
  intros Hb. destruct (uc !! uid) as [d|] eqn:E; cbn.
  - by apply (Hb uid).
  - split; [done | lia].
Qed.

Lemma bounded_push cap (uc : gmap Z deque) (uid : Z) (t : Turn) :
  bounded cap uc → bounded cap (push_turn cap uc uid t).
Proof.
  intros Hb v d Hv. destruct (decide (uid = v)) as [->|Hne].
  - rewrite push_turn_lookup in Hv. injection Hv as <-.
    destruct (bounded_default cap uc v Hb) as [Hm Hl].
    split; [done|].
    rewrite deque_append_items by lia.
    rewrite last_n_length, Hm. lia.
  - rewrite push_turn_other in Hv by done. by apply (Hb v).
Qed.

Lemma bounded_run_op cap (uc : gmap Z deque) (op : buffer_op) :
  bounded cap uc → bounded cap (run_op cap uc op).
Proof.
  destruct op; cbn; intros Hb.
  - by apply bounded_ensure.
  - by apply bounded_push.
  - by apply bounded_push.
Qed.

Lemma bounded_run_ops cap (ops : list buffer_op) (uc : gmap Z deque) :
  bounded cap uc → bounded cap (run_ops cap uc ops).
Proof.
  revert uc. induction ops as [|op ops IH]; intros uc Hb; [done|].
  cbn. apply IH. by apply bounded_run_op.
Qed.

Lemma hist_push_turn_at cap (uc : gmap Z deque) (uid : Z) (t : Turn) :
  (∀ d, uc !! uid = Some d → maxlen d = cap ∧ length (items d) ≤ cap) →
  hist (push_turn cap uc uid t) uid = last_n cap (hist uc uid ++ [t]).
Proof.
  intros Hd. unfold hist, snapshot. rewrite push_turn_lookup.
  destruct (uc !! uid) as [d|] eqn:E;
    cbv [fmap option_fmap option_map default id].
  - destruct (Hd d eq_refl) as [Hm Hl].
    rewrite deque_append_items by lia. by rewrite Hm.
  - rewrite deque_append_items by (cbn; lia). reflexivity.
Qed.

Lemma hist_push_turn cap (uc : gmap Z deque) (uid : Z) (t : Turn) :
  bounded cap uc →
  hist (push_turn cap uc uid t) uid = last_n cap (hist uc uid ++ [t]).
Proof. intros Hb. apply hist_push_turn_at. intros d. apply Hb. Qed.

Lemma hist_bounded cap (uc : gmap Z deque) (uid : Z) :
  bounded cap uc → length (hist uc uid) ≤ cap.
Proof.
  intros Hb. unfold hist, snapshot.
  destruct (uc !! uid) as [d|] eqn:E; cbn; [|lia].
  by apply (Hb uid).
Qed.

Lemma hist_other_key (uc uc' : gmap Z deque) (uid : Z) :
  uc' !! uid = uc !! uid → hist uc' uid = hist uc uid.
Proof. intros H. unfold hist, snapshot. by rewrite H. Qed.

Lemma hist_ensure cap (uc : gmap Z deque) (u uid : Z) :
  hist (ensure_context cap uc u) uid = hist uc uid.
Proof.
  destruct (decide (u = uid)) as [->|Hne].
  - unfold hist, snapshot. rewrite ensure_context_lookup.
    by destruct (uc !! uid).
  - apply hist_other_key. by apply ensure_context_other.
Qed.

Lemma run_ops_hist cap (ops : list buffer_op) (uc : gmap Z deque) (uid : Z) :
  bounded cap uc →
  hist (run_ops cap uc ops) uid
  = last_n cap (hist uc uid ++ turns_for uid ops).
Proof.
  revert uc. induction ops as [|op ops IH]; intros uc Hb.
  - cbn. rewrite app_nil_r. symmetry. apply last_n_all.
    by apply hist_bounded.
  - cbn [run_ops fold_left]. unfold run_ops in IH.
    rewrite IH by (by apply bounded_run_op).
    destruct op as [u | u text | u text]; cbn [run_op turns_for].
    + by rewrite hist_ensure.
    + unfold push_user. destruct (decide (u = uid)) as [->|Hne].
      * rewrite hist_push_turn by done.
        rewrite last_n_app_absorb. by rewrite <- app_assoc.
      * f_equal. f_equal. apply hist_other_key. by apply push_turn_other.
    + unfold push_assistant. destruct (decide (u = uid)) as [->|Hne].
      * rewrite hist_push_turn by done.
        rewrite last_n_app_absorb. by rewrite <- app_assoc.
      * f_equal. f_equal. apply hist_other_key. by apply push_turn_other.
Qed.

Lemma run_op_keeps_key cap (uc : gmap Z deque) (op : buffer_op) (uid : Z) :
  is_Some (uc !! uid) → is_Some (run_op cap uc op !! uid).
Proof.
  intros Hs. destruct (decide (op_uid op = uid)) as [Heq|Hne].
  - destruct op; cbn in Heq; subst; cbn;
      [rewrite ensure_context_lookup | unfold push_user; rewrite push_turn_lookup
       | unfold push_assistant; rewrite push_turn_lookup]; eauto.
  - by rewrite run_op_other.
Qed.

Lemma run_ops_keeps_key cap (ops : list buffer_op) (uc : gmap Z deque) (uid : Z) :
  is_Some (uc !! uid) → is_Some (run_ops cap uc ops !! uid).
Proof.
  revert uc. induction ops as [|op ops IH]; intros uc Hs; [done|].
  cbn. apply IH. by apply run_op_keeps_key.
Qed.

Lemma run_ops_recorded_key cap (ops : list buffer_op) (uc : gmap Z deque) (uid : Z) :
  turns_for uid ops ≠ [] → is_Some (run_ops cap uc ops !! uid).
Proof.
  revert uc. induction ops as [|op ops IH]; intros uc Hne; [done|].
  cbn [run_ops fold_left]. unfold run_ops in IH.
  destruct op as [u | u text | u text]; cbn [turns_for] in Hne.
  - by apply IH.
  - destruct (decide (u = uid)) as [->|Hd]; [|by apply IH].
    apply (run_ops_keeps_key cap ops). cbn. unfold push_user.
    rewrite push_turn_lookup. eauto.
  - destruct (decide (u = uid)) as [->|Hd]; [|by apply IH].
    apply (run_ops_keeps_key cap ops). cbn. unfold push_assistant.
    rewrite push_turn_lookup. eauto.
Qed.

Lemma snapshot_hist (uc : gmap Z deque) (uid : Z) :
  is_Some (uc !! uid) → snapshot uc uid = Some (hist uc uid).
Proof. intros [d Hd]. unfold hist, snapshot. by rewrite Hd. Qed.

(** ** The context buffer *)

(** C1. The history of every user is a FIFO bounded by the capacity N, which
    the source fixes at 24: from a store of bounded deques, no sequence of
    ensure, recordUser and recordAssistant calls makes a history longer than
    N; a sequence that records exactly N+1 turns for a user (interleaved at
    will with calls for other users) leaves that user's snapshot with exactly
    N turns, the N most recent ones in call order, the oldest one evicted;
    and at N = 2 the three calls of the scenario leave
    [assistant "b"; user "c"]. *)
Theorem history_is_bounded_fifo :
  CONTEXT_MAXLEN = 24
  ∧ (∀ N (uc : gmap Z deque) ops uid h,
       bounded N uc →
       snapshot (run_ops N uc ops) uid = Some h → length h ≤ N)
  ∧ (∀ N (uc : gmap Z deque) ops uid,
       bounded N uc →
       length (turns_for uid ops) = S N →
       snapshot (run_ops N uc ops) uid = Some (tail (turns_for uid ops))
       ∧ tail (turns_for uid ops) = last_n N (turns_for uid ops)
       ∧ length (tail (turns_for uid ops)) = N)
  ∧ snapshot
      (run_ops 2 ∅ [RecordUser 1 (py "a"); RecordAssistant 1 (py "b");
                    RecordUser 1 (py "c")]) 1
    = Some [mkTurn assistant (py "b"); mkTurn user (py "c")].
Proof.
  split; [reflexivity|]. split; [|split].
  - intros N uc ops uid h Hb Hs.
    pose proof (bounded_run_ops N ops uc Hb) as Hb'.
    unfold snapshot in Hs.
    destruct (run_ops N uc ops !! uid) as [d|] eqn:E; [|done].
    cbn in Hs. injection Hs as <-. by apply (Hb' uid).
  - intros N uc ops uid Hb Hlen.
    assert (Hne : turns_for uid ops ≠ []).
    { intros Hnil. rewrite Hnil in Hlen. discriminate. }
    rewrite snapshot_hist by (by apply run_ops_recorded_key).
    rewrite run_ops_hist by done.
    assert (Hcut : last_n N (hist uc uid ++ turns_for uid ops)
                   = tail (turns_for uid ops)).
    { rewrite <- (last_n_succ_tail N) by done.
      unfold last_n. rewrite length_app, Hlen, drop_app.
      rewrite (drop_ge (hist uc uid)) by lia.
      cbn [app]. f_equal. lia. }
    rewrite Hcut. split; [done|]. split.
    + symmetry. by apply last_n_succ_tail.
    + destruct (turns_for uid ops); cbn in *; lia.
  - vm_compute. reflexivity.
Qed.

Lemma history_is_bounded_fifo_witness :
  length [mkTurn user (py "x")] ≤ 1
  ∧ snapshot
      (run_ops 1 ∅ [RecordUser 7 (py "x"); RecordAssistant 8 (py "z");
                    RecordAssistant 7 (py "y")]) 7
    = Some [mkTurn assistant (py "y")].
Proof.
  split.
  - apply (proj1 (proj2 history_is_bounded_fifo) 1 ∅
             [RecordUser 7 (py "x")] 7%Z [mkTurn user (py "x")]
             (bounded_empty 1) eq_refl).
  - apply (proj1 (proj1 (proj2 (proj2 history_is_bounded_fifo)) 1 ∅
      [RecordUser 7 (py "x"); RecordAssistant 8 (py "z");
       RecordAssistant 7 (py "y")] 7%Z (bounded_empty 1) eq_refl)).
Defined.

(** C5. Users are isolated: calls for a user u1 leave the snapshot of any
    other user u2 as it was. *)
Theorem other_user_snapshot_unchanged :
  ∀ N (uc : gmap Z deque) (u1 u2 : Z) ops,
    u1 ≠ u2 →
    Forall (fun op => op_uid op = u1) ops →
    snapshot (run_ops N uc ops) u2 = snapshot uc u2.
Proof.
  intros N uc u1 u2 ops Hne Hall. unfold snapshot.
  rewrite run_ops_other; [done|].
  eapply Forall_impl; [exact Hall|]. cbn. intros op ->. exact Hne.
Qed.

Lemma other_user_snapshot_unchanged_witness :
  snapshot
    (run_ops CONTEXT_MAXLEN (run_ops CONTEXT_MAXLEN ∅ [RecordUser 2 (py "hi")])
       [Ensure 1; RecordUser 1 (py "a"); RecordAssistant 1 (py "b")]) 2
  = snapshot (run_ops CONTEXT_MAXLEN ∅ [RecordUser 2 (py "hi")]) 2.
Proof.
  apply (other_user_snapshot_unchanged CONTEXT_MAXLEN
           (run_ops CONTEXT_MAXLEN ∅ [RecordUser 2 (py "hi")]) 1%Z 2%Z).
  - discriminate.
  - repeat constructor.
Defined.

(** C7, as the code has it. [ensure_context] is total and idempotent: a
    call for a user already in the store returns the store itself, so does
    every later call, and no history changes. Right after the first
    [ensure_context] for a new user the snapshot is empty. For a user who
    was never ensured the store has no entry, so the read
    [list(user_context[uid])] raises [KeyError] rather than yielding an
    empty sequence; the program reads a history only after [push_user],
    where the entry always exists. *)
Theorem ensure_context_idempotent :
  ∀ N (uc : gmap Z deque) (uid : Z),
    ensure_context N (ensure_context N uc uid) uid = ensure_context N uc uid
    ∧ (∀ n, Nat.iter n (fun s => ensure_context N s uid)
              (ensure_context N uc uid) = ensure_context N uc uid)
    ∧ (is_Some (uc !! uid) → ensure_context N uc uid = uc)
    ∧ (∀ v, v ≠ uid →
         snapshot (ensure_context N uc uid) v = snapshot uc v)
    ∧ (is_Some (uc !! uid) →
         snapshot (ensure_context N uc uid) uid = snapshot uc uid)
    ∧ (uc !! uid = None →
         snapshot uc uid = None
         ∧ snapshot (ensure_context N uc uid) uid = Some [])
    ∧ (∀ text, is_Some (snapshot (push_user N uc uid text) uid)).
Proof.
  intros N uc uid.
  assert (Hnoop : ∀ s : gmap Z deque,
             is_Some (s !! uid) → ensure_context N s uid = s).
  { intros s [d Hd]. unfold ensure_context. by rewrite Hd. }
  assert (Hidem : ensure_context N (ensure_context N uc uid) uid
                  = ensure_context N uc uid).
  { apply Hnoop. rewrite ensure_context_lookup. eauto. }
  split; [exact Hidem|]. split; [|split; [|split; [|split; [|split]]]].
  - induction n as [|n IH]; [done|]. by rewrite Nat.iter_succ, IH.
  - apply Hnoop.
  - intros v Hv. unfold snapshot. by rewrite ensure_context_other.
  - intros Hs. by rewrite Hnoop.
  - intros Hnone. unfold snapshot.
    rewrite ensure_context_lookup, Hnone. done.
  - intros text. unfold snapshot, push_user.
    rewrite push_turn_lookup. cbn. eauto.
Qed.

Lemma ensure_context_idempotent_witness :
  ensure_context CONTEXT_MAXLEN
    (push_user CONTEXT_MAXLEN ∅ 5 (py "hi")) 5
  = push_user CONTEXT_MAXLEN ∅ 5 (py "hi")
  ∧ snapshot (∅ : gmap Z deque) 5 = None
  ∧ snapshot (ensure_context CONTEXT_MAXLEN ∅ 5) 5 = Some [].
Proof.
  split.
  - apply (proj1 (proj2 (proj2 (ensure_context_idempotent CONTEXT_MAXLEN
             (push_user CONTEXT_MAXLEN ∅ 5 (py "hi")) 5%Z)))).
    unfold push_user. rewrite push_turn_lookup. eauto.
  - apply (proj1 (proj2 (proj2 (proj2 (proj2 (proj2
             (ensure_context_idempotent CONTEXT_MAXLEN ∅ 5%Z))))))).
    apply lookup_empty.
Defined.

(** C7, as stated, fails on the initial store: reading the history of a
    user who was never ensured does not give the empty sequence. *)
Lemma snapshot_of_unseen_user_is_not_empty_list :
  snapshot (∅ : gmap Z deque) 1 = None
  ∧ snapshot (∅ : gmap Z deque) 1 ≠ Some [].
Proof. split; [reflexivity | discriminate]. Qed.

(** ** Facts about strings *)

Lemma startswith_spec (s p : pystr) :
  startswith s p = true ↔ ∃ r, s = p ++ r.
Proof.
  revert s. induction p as [|b p IH]; intros s.
  - destruct s; cbn; split; eauto.
  - destruct s as [|a s]; cbn.
    + split; [discriminate | intros [r Hr]; discriminate].
    + rewrite andb_true_iff, IH. unfold code_eqb. rewrite N.eqb_eq.
      split.
      * intros [-> [r ->]]. eauto.
      * intros [r Hr]. injection Hr as -> ->. eauto.
Qed.

Lemma contains_spec (s p : pystr) :
  contains s p = true ↔ ∃ l r, s = l ++ p ++ r.
Proof.
  induction s as [|a s IH].
  - cbn [contains]. rewrite orb_false_r, startswith_spec. split.
    + intros [r Hr]. by exists [], r.
    + intros [l [r Hr]]. destruct l as [|x l]; [eauto | discriminate].
  - cbn [contains]. rewrite orb_true_iff, IH, startswith_spec. split.
    + intros [[r Hr] | [l [r Hr]]].
      * by exists [], r.
      * exists (a :: l), r. by rewrite Hr.
    + intros [l [r Hr]]. destruct l as [|x l].
      * left. eauto.
      * right. injection Hr as -> ->. eauto.
Qed.

Lemma endswith_app (s p : pystr) : endswith (s ++ p) p = true.
Proof.
  unfold endswith. rewrite rev_app_distr.
  apply startswith_spec. eauto.
Qed.

Lemma marker_report_subsumes (s : pystr) :
  contains s MARKER_CREATE_REPORT = true → contains s MARKER_REPORT = true.
Proof.
  rewrite !contains_spec. intros [l [r Hr]].
  exists (l ++ [116; 7841; 111; 32]%N), r.
  rewrite Hr, <- app_assoc. reflexivity.
Qed.

Lemma wants_report_marker lower (text : pystr) :
  wants_report lower text = contains (lower text) MARKER_REPORT.
Proof.
  unfold wants_report.
  destruct (contains (lower text) MARKER_CREATE_REPORT) eqn:E; [|done].
  cbn. symmetry. by apply marker_report_subsumes.
Qed.

Lemma last_n_keeps_suffix {A} (n : nat) (a b : list A) :
  length b ≤ n → ∃ pre, last_n n (a ++ b) = pre ++ b.
Proof.
  intros Hle. unfold last_n. rewrite length_app, drop_app.
  exists (drop (length a + length b - n) a).
  replace (length a + length b - n - length a) with 0 by lia.
  reflexivity.
Qed.

Lemma lstrip_decompose (s : pystr) :
  ∃ ws, s = ws ++ lstrip s ∧ Forall (fun c => is_space c = true) ws.
Proof.
  induction s as [|c s (ws & Heq & Hws)]; [by exists []|].
  cbn [lstrip]. destruct (is_space c) eqn:Hc.
  - exists (c :: ws). split; [by rewrite Heq at 1 | by constructor].
  - by exists [].
Qed.

Lemma strip_decompose (s : pystr) :
  ∃ ws1 ws2,
    s = ws1 ++ strip s ++ ws2
    ∧ Forall (fun c => is_space c = true) ws1
    ∧ Forall (fun c => is_space c = true) ws2.
Proof.
  destruct (lstrip_decompose s) as (ws1 & Hs & Hws1).
  destruct (lstrip_decompose (rev (lstrip s))) as (ws2 & Hr & Hws2).
  exists ws1, (rev ws2). split; [|split; [done|]].
  - rewrite Hs at 1. f_equal. unfold strip, rstrip.
    rewrite <- rev_app_distr, <- Hr. by rewrite rev_involutive.
  - by apply Forall_rev.
Qed.

Lemma substring_skip_space_left (b : N) (p ws x : pystr) :
  is_space b = false →
  Forall (fun c => is_space c = true) ws →
  (∃ l r, ws ++ x = l ++ (b :: p) ++ r) →
  ∃ l r, x = l ++ (b :: p) ++ r.
Proof.
  intros Hb Hws. induction Hws as [|w ws Hw Hws IH]; [done|].
  intros (l & r & Heq). apply IH. destruct l as [|a l].
  - cbn in Heq. injection Heq as -> _. congruence.
  - cbn in Heq. injection Heq as _ Heq. eauto.
Qed.

Lemma substring_skip_space_right (p : pystr) (b : N) (ws x : pystr) :
  is_space b = false →
  Forall (fun c => is_space c = true) ws →
  (∃ l r, x ++ ws = l ++ (p ++ [b]) ++ r) →
  ∃ l r, x = l ++ (p ++ [b]) ++ r.
Proof.
  intros Hb Hws (l & r & Heq).
  destruct (substring_skip_space_left b (rev p) (rev ws) (rev x) Hb)
    as (l' & r' & Heq').
  - by apply Forall_rev.
  - exists (rev r), (rev l). rewrite <- rev_app_distr, Heq.
    rewrite !rev_app_distr. cbn. by rewrite <- !app_assoc.
  - exists (rev r'), (rev l'). rewrite <- (rev_involutive x), Heq'.
    rewrite !rev_app_distr. cbn [rev]. rewrite rev_involutive.
    by rewrite <- !app_assoc.
Qed.

Lemma marker_in_raw_text lower (raw : pystr) :
  keeps_outer_space lower →
  contains (lower raw) MARKER_REPORT
  = contains (lower (strip raw)) MARKER_REPORT.
Proof.
  intros Hlow.
  destruct (strip_decompose raw) as (ws1 & ws2 & Hraw & Hws1 & Hws2).
  assert (Heq : lower raw = ws1 ++ lower (strip raw) ++ ws2).
  { rewrite Hraw at 1. by apply Hlow. }
  apply eq_true_iff_eq. rewrite !contains_spec, Heq. split.
  - intros Hsub.
    apply (substring_skip_space_left 98 [225; 111; 32; 99; 225; 111]%N ws1)
      in Hsub; [|done|done].
    by apply (substring_skip_space_right [98; 225; 111; 32; 99; 225]%N 111 ws2)
      in Hsub.
  - intros (l & r & ->). exists (ws1 ++ l), (r ++ ws2).
    by rewrite <- !app_assoc.
Qed.

Lemma lower_ascii_keeps_outer_space : keeps_outer_space lower_ascii.
Proof.
  assert (Hfix : ∀ ws, Forall (fun c => is_space c = true) ws →
                       lower_ascii ws = ws).
  { intros ws Hws. induction Hws as [|c ws Hc Hws IH]; [done|].
    unfold lower_ascii in *. cbn [map]. rewrite IH. f_equal.
    destruct ((65 <=? c)%N && (c <=? 90)%N) eqn:E; [|done].
    apply andb_true_iff in E as [H1 H2].
    apply N.leb_le in H1, H2. unfold is_space in Hc.
    repeat (apply orb_true_iff in Hc as [Hc|Hc]);
      repeat (apply andb_true_iff in Hc as [? ?]);
      repeat match goal with
             | H : (_ <=? _)%N = true |- _ => apply N.leb_le in H
             | H : (_ =? _)%N = true |- _ => apply N.eqb_eq in H
             end; lia. }
  assert (Happ : ∀ a b, lower_ascii (a ++ b) = lower_ascii a ++ lower_ascii b).
  { intros a b. apply map_app. }
  intros ws1 s ws2 H1 H2.
  by rewrite !Happ, (Hfix ws1 H1), (Hfix ws2 H2).
Qed.

(** ** Handling one text message *)

Lemma dispatch_lookup (w : World) (m : TextMsg) :
  context_at_dispatch w m !! t_uid m
  = Some (deque_append
            (default (deque_new CONTEXT_MAXLEN) (user_context w !! t_uid m))
            (mkTurn user (strip (t_text m)))).
Proof. unfold context_at_dispatch, push_user. apply push_turn_lookup. Qed.

Lemma dispatch_snapshot (w : World) (m : TextMsg) :
  snapshot (context_at_dispatch w m) (t_uid m)
  = Some (hist (context_at_dispatch w m) (t_uid m)).
Proof. apply snapshot_hist. rewrite dispatch_lookup. eauto. Qed.

Lemma handle_text_failure lower (e : Env) (w : World) (m : TextMsg) :
  chat_completion e (request_payload w m) = None →
  handle_text lower e w m
  = reply_to
      (log_exception
         (send_request (set_context w (context_at_dispatch w m))
            (request_payload w m))
         (py "OpenAI error"))
      OPENAI_ERROR_REPLY.
Proof.
  intros Hfail. unfold handle_text. cbn [user_context set_context].
  fold (context_at_dispatch w m). rewrite dispatch_snapshot.
  fold (request_payload w m). by rewrite Hfail.
Qed.

Lemma handle_text_success lower (e : Env) (w : World) (m : TextMsg) raw :
  chat_completion e (request_payload w m) = Some raw →
  handle_text lower e w m
  = if wants_report lower (strip (t_text m)) then
      finish_report
        (generate_pdf_report e (after_reply w m raw) (t_uid m)
           (strip (t_text m)) (strip raw))
    else reply_to (after_reply w m raw) (strip raw).
Proof.
  intros Hok. unfold handle_text. cbn [user_context set_context].
  fold (context_at_dispatch w m). rewrite dispatch_snapshot.
  fold (request_payload w m). rewrite Hok.
  cbn [user_context send_request set_context].
  fold (after_reply w m raw).
  destruct (wants_report lower (strip (t_text m))); [|done].
  unfold finish_report.
  by destruct (generate_pdf_report e (after_reply w m raw) (t_uid m)
                 (strip (t_text m)) (strip raw)) as [[p|] w4].
Qed.

Lemma generate_pdf_report_frame (e : Env) (w : World) uid q a :
  user_context (generate_pdf_report e w uid q a).2 = user_context w
  ∧ outbox (generate_pdf_report e w uid q a).2 = outbox w
  ∧ requests (generate_pdf_report e w uid q a).2 = requests w.
Proof.
  unfold generate_pdf_report.
  destruct (makedirs e _); [|done].
  destruct (render_pdf e _ _); [done|].
  by destruct (write_text e _ _) as [|[part|]].
Qed.

Lemma finish_report_frame (r : option pystr * World) :
  user_context (finish_report r) = user_context r.2
  ∧ outbox (finish_report r) = outbox r.2 ++ report_replies r.1
  ∧ requests (finish_report r) = requests r.2
  ∧ files (finish_report r) = files r.2.
Proof.
  unfold finish_report, report_replies.
  destruct r.1; cbn; by rewrite ?app_nil_r.
Qed.

Lemma report_branch_frame (e : Env) (w : World) uid q a :
  user_context (finish_report (generate_pdf_report e w uid q a))
  = user_context w
  ∧ outbox (finish_report (generate_pdf_report e w uid q a))
    = outbox w ++ report_replies (generate_pdf_report e w uid q a).1
  ∧ requests (finish_report (generate_pdf_report e w uid q a)) = requests w.
Proof.
  destruct (finish_report_frame (generate_pdf_report e w uid q a))
    as (-> & -> & -> & _).
  destruct (generate_pdf_report_frame e w uid q a) as (-> & -> & ->).
  done.
Qed.

Lemma generate_pdf_report_returns (e : Env) (w : World) uid q a :
  makedirs e (MEDIA_DIR e) = true →
  render_pdf e (report_pdf_path e uid) (report_canvas uid q a) = true
  ∨ write_text e (report_pdf_path e uid ++ py ".txt")
      (report_fallback_text uid q a) = Written →
  ∃ path c,
    generate_pdf_report e w uid q a = (Some path, write_file w path c)
    ∧ (path = report_pdf_path e uid
       ∨ path = report_pdf_path e uid ++ py ".txt").
Proof.
  intros Hdir Hok. unfold generate_pdf_report. rewrite Hdir.
  destruct (render_pdf e _ _) eqn:Hr.
  - eexists _, _. split; [reflexivity | by left].
  - destruct Hok as [Hok|Hok]; [done|]. rewrite Hok.
    eexists _, _. split; [reflexivity | by right].
Qed.

Lemma handle_text_requests lower (e : Env) (w : World) (m : TextMsg) :
  requests (handle_text lower e w m) = requests w ++ [request_payload w m].
Proof.
  destruct (chat_completion e (request_payload w m)) as [raw|] eqn:E.
  - rewrite (handle_text_success lower e w m raw E).
    destruct (wants_report lower (strip (t_text m))); [|done].
    by rewrite (proj2 (proj2 (report_branch_frame _ _ _ _ _))).
  - by rewrite (handle_text_failure lower e w m E).
Qed.

Lemma dispatch_hist_ends_with_text (w : World) (m : TextMsg) :
  bounded CONTEXT_MAXLEN (user_context w) →
  ∃ pre, hist (context_at_dispatch w m) (t_uid m)
         = pre ++ [mkTurn user (strip (t_text m))].
Proof.
  intros Hb. unfold context_at_dispatch, push_user.
  rewrite hist_push_turn by done.
  apply last_n_keeps_suffix. cbn. unfold CONTEXT_MAXLEN. lia.
Qed.

(** C2. When the inference call raises, [handle_text] appends no assistant
    turn: the store is the one that held just before the call, so the
    snapshot of the sender and its length are unchanged; the fixed error
    string is the only reply; no report file is written; the request was
    sent once. This holds for every text, user and lower-casing function. *)
Theorem inference_failure_keeps_history :
  ∀ lower (e : Env) (w : World) (m : TextMsg),
    chat_completion e (request_payload w m) = None →
    user_context (handle_text lower e w m) = context_at_dispatch w m
    ∧ snapshot (user_context (handle_text lower e w m)) (t_uid m)
      = snapshot (context_at_dispatch w m) (t_uid m)
    ∧ length (hist (user_context (handle_text lower e w m)) (t_uid m))
      = length (hist (context_at_dispatch w m) (t_uid m))
    ∧ outbox (handle_text lower e w m) = outbox w ++ [OPENAI_ERROR_REPLY]
    ∧ files (handle_text lower e w m) = files w
    ∧ requests (handle_text lower e w m)
      = requests w ++ [request_payload w m].
Proof.
  intros lower e w m Hfail.
  rewrite (handle_text_failure lower e w m Hfail). cbn.
  repeat split; reflexivity.
Qed.

Lemma inference_failure_keeps_history_witness :
  outbox (handle_text lower_ascii env_all_fail initial_world
            {| t_uid := 1; t_text := py " hello " |})
  = [OPENAI_ERROR_REPLY].
Proof.
  apply (proj1 (proj2 (proj2 (proj2
    (inference_failure_keeps_history lower_ascii env_all_fail initial_world
       {| t_uid := 1; t_text := py " hello " |} eq_refl))))).
Defined.

(** C3. The request that [handle_text] sends is the system turn followed by
    the sender's snapshot taken after the inbound text was recorded: with a
    history of k turns at that point the payload has k+1 entries, the first
    has role system, entry i+1 is turn i of the history, and the last entry
    is the user turn just recorded. *)
Theorem request_is_system_turn_plus_snapshot :
  ∀ lower (e : Env) (w : World) (m : TextMsg),
    bounded CONTEXT_MAXLEN (user_context w) →
    ∃ h payload,
      snapshot (context_at_dispatch w m) (t_uid m) = Some h
      ∧ requests (handle_text lower e w m) = requests w ++ [payload]
      ∧ payload = mkTurn system SYSTEM_PROMPT :: h
      ∧ length payload = length h + 1
      ∧ role <$> head payload = Some system
      ∧ (∀ i, payload !! S i = h !! i)
      ∧ last payload = Some (mkTurn user (strip (t_text m))).
Proof.
  intros lower e w m Hb.
  exists (hist (context_at_dispatch w m) (t_uid m)), (request_payload w m).
  split; [apply dispatch_snapshot|].
  split; [apply handle_text_requests|].
  split; [reflexivity|].
  split; [unfold request_payload; cbn; lia|].
  split; [reflexivity|].
  split; [reflexivity|].
  unfold request_payload.
  destruct (dispatch_hist_ends_with_text w m Hb) as [pre Hpre].
  rewrite Hpre, app_comm_cons. apply last_snoc.
Qed.

Lemma request_is_system_turn_plus_snapshot_witness :
  ∃ h payload,
    snapshot (context_at_dispatch initial_world
                {| t_uid := 1; t_text := py "hi" |}) 1 = Some h
    ∧ requests (handle_text lower_ascii env_all_fail initial_world
                  {| t_uid := 1; t_text := py "hi" |}) = [] ++ [payload]
    ∧ payload = mkTurn system SYSTEM_PROMPT :: h
    ∧ length payload = length h + 1
    ∧ role <$> head payload = Some system
    ∧ (∀ i, payload !! S i = h !! i)
    ∧ last payload = Some (mkTurn user (strip (py "hi"))).
Proof.
  apply (request_is_system_turn_plus_snapshot lower_ascii env_all_fail
           initial_world {| t_uid := 1; t_text := py "hi" |}
           (bounded_empty CONTEXT_MAXLEN)).
Defined.

Lemma after_reply_hist (w : World) (m : TextMsg) (raw : pystr) :
  bounded CONTEXT_MAXLEN (user_context w) →
  ∃ pre, hist (user_context (after_reply w m raw)) (t_uid m)
         = pre ++ [mkTurn user (strip (t_text m));
                   mkTurn assistant (strip raw)].
Proof.
  intros Hb. unfold after_reply. cbn [user_context set_context].
  unfold push_assistant, context_at_dispatch, push_user.
  rewrite hist_push_turn by (by apply bounded_push).
  rewrite hist_push_turn by done.
  rewrite last_n_app_absorb, <- app_assoc.
  apply last_n_keeps_suffix. cbn. unfold CONTEXT_MAXLEN. lia.
Qed.

(** C4. The report branch is taken exactly when the lower-cased text (the
    inbound text without surrounding white space, as the handler takes it)
    contains "báo cáo"; the other marker tested by the source, "tạo báo
    cáo", contains it. When it does and the inference call returns, the
    handler hands the text and the assistant text to [generate_pdf_report]
    and does not send the assistant text: the only reply is the report
    notice with the returned path, and there is none when an exception
    escapes [generate_pdf_report]. When the media directory can be made and
    either the renderer or the text fallback completes, the notice is sent
    and one report file is written; when the directory cannot be made,
    nothing is sent or written. The text had been recorded as a user turn
    before the request went out, where it is the last entry of the payload.
    For a lower-casing function that leaves surrounding white space alone
    the test may equally be read on the inbound text as received. The text
    "tạo báo cáo xe" takes this branch. *)
Theorem report_marker_routes_to_renderer :
  (∀ lower text,
     wants_report lower text = contains (lower text) MARKER_REPORT)
  ∧ (∀ lower (e : Env) (w : World) (m : TextMsg) raw,
       bounded CONTEXT_MAXLEN (user_context w) →
       chat_completion e (request_payload w m) = Some raw →
       contains (lower (strip (t_text m))) MARKER_REPORT = true →
       let r := generate_pdf_report e (after_reply w m raw) (t_uid m)
                  (strip (t_text m)) (strip raw) in
       handle_text lower e w m = finish_report r
       ∧ outbox (handle_text lower e w m) = outbox w ++ report_replies r.1
       ∧ requests (handle_text lower e w m)
         = requests w ++ [request_payload w m]
       ∧ last (request_payload w m)
         = Some (mkTurn user (strip (t_text m)))
       ∧ ∃ pre, hist (user_context (handle_text lower e w m)) (t_uid m)
                = pre ++ [mkTurn user (strip (t_text m));
                          mkTurn assistant (strip raw)])
  ∧ (∀ lower (e : Env) (w : World) (m : TextMsg) raw,
       chat_completion e (request_payload w m) = Some raw →
       contains (lower (strip (t_text m))) MARKER_REPORT = true →
       makedirs e (MEDIA_DIR e) = true →
       render_pdf e (report_pdf_path e (t_uid m))
         (report_canvas (t_uid m) (strip (t_text m)) (strip raw)) = true
       ∨ write_text e (report_pdf_path e (t_uid m) ++ py ".txt")
           (report_fallback_text (t_uid m) (strip (t_text m)) (strip raw))
         = Written →
       ∃ path c,
         (path = report_pdf_path e (t_uid m)
          ∨ path = report_pdf_path e (t_uid m) ++ py ".txt")
         ∧ outbox (handle_text lower e w m)
           = outbox w ++ [REPORT_CREATED_REPLY path]
         ∧ files (handle_text lower e w m) = files w ++ [(path, c)])
  ∧ (∀ lower (e : Env) (w : World) (m : TextMsg) raw,
       chat_completion e (request_payload w m) = Some raw →
       contains (lower (strip (t_text m))) MARKER_REPORT = true →
       makedirs e (MEDIA_DIR e) = false →
       outbox (handle_text lower e w m) = outbox w
       ∧ files (handle_text lower e w m) = files w)
  ∧ (∀ lower (e : Env) (w : World) (m : TextMsg) raw,
       keeps_outer_space lower →
       chat_completion e (request_payload w m) = Some raw →
       contains (lower (t_text m)) MARKER_REPORT = true →
       outbox (handle_text lower e w m)
       = outbox w
         ++ report_replies
              (generate_pdf_report e (after_reply w m raw) (t_uid m)
                 (strip (t_text m)) (strip raw)).1)
  ∧ (∀ lower (e : Env) (w : World) uid raw,
       lower SCENARIO_TEXT = SCENARIO_TEXT →
       chat_completion e
         (request_payload w {| t_uid := uid; t_text := SCENARIO_TEXT |})
       = Some raw →
       handle_text lower e w {| t_uid := uid; t_text := SCENARIO_TEXT |}
       = finish_report
           (generate_pdf_report e
              (after_reply w {| t_uid := uid; t_text := SCENARIO_TEXT |} raw)
              uid SCENARIO_TEXT (strip raw))
       ∧ (makedirs e (MEDIA_DIR e) = true →
          render_pdf e (report_pdf_path e uid)
            (report_canvas uid SCENARIO_TEXT (strip raw)) = true →
          outbox (handle_text lower e w
                    {| t_uid := uid; t_text := SCENARIO_TEXT |})
          = outbox w ++ [REPORT_CREATED_REPLY (report_pdf_path e uid)])).
Proof.
  assert (Hroute : ∀ lower (e : Env) (w : World) (m : TextMsg) raw,
            chat_completion e (request_payload w m) = Some raw →
            contains (lower (strip (t_text m))) MARKER_REPORT = true →
            handle_text lower e w m
            = finish_report
                (generate_pdf_report e (after_reply w m raw) (t_uid m)
                   (strip (t_text m)) (strip raw))).
  { intros lower e w m raw Hok Hmark.
    rewrite (handle_text_success lower e w m raw Hok).
    by rewrite wants_report_marker, Hmark. }
  split; [apply wants_report_marker|].
  split; [|split; [|split; [|split]]].
  - intros lower e w m raw Hb Hok Hmark r.
    pose proof (Hroute lower e w m raw Hok Hmark) as Heq. fold r in Heq.
    destruct (report_branch_frame e (after_reply w m raw) (t_uid m)
                (strip (t_text m)) (strip raw)) as (Hctx & Hout & Hreq).
    fold r in Hctx, Hout, Hreq.
    split; [exact Heq|]. rewrite Heq.
    split; [exact Hout|].
    split; [exact Hreq|].
    split.
    + unfold request_payload.
      destruct (dispatch_hist_ends_with_text w m Hb) as [pre Hpre].
      rewrite Hpre, app_comm_cons. apply last_snoc.
    + rewrite Hctx. by apply after_reply_hist.
  - intros lower e w m raw Hok Hmark Hdir Hdone.
    rewrite (Hroute lower e w m raw Hok Hmark).
    destruct (generate_pdf_report_returns e (after_reply w m raw) (t_uid m)
                (strip (t_text m)) (strip raw) Hdir Hdone)
      as (path & c & -> & Hpath).
    exists path, c. split; [exact Hpath|]. done.
  - intros lower e w m raw Hok Hmark Hdir.
    rewrite (Hroute lower e w m raw Hok Hmark).
    unfold generate_pdf_report. rewrite Hdir. done.
  - intros lower e w m raw Hlow Hok Hmark.
    rewrite marker_in_raw_text in Hmark by done.
    rewrite (Hroute lower e w m raw Hok Hmark).
    exact (proj1 (proj2 (report_branch_frame _ _ _ _ _))).
  - intros lower e w uid raw Hlow Hok.
    assert (Hmark : contains
                      (lower (strip (t_text
                         {| t_uid := uid; t_text := SCENARIO_TEXT |})))
                      MARKER_REPORT = true).
    { cbn [t_text]. change (strip SCENARIO_TEXT) with SCENARIO_TEXT.
      by rewrite Hlow. }
    pose proof (Hroute lower e w _ raw Hok Hmark) as Heq.
    cbn [t_text t_uid] in Heq.
    change (strip SCENARIO_TEXT) with SCENARIO_TEXT in Heq.
    split; [exact Heq|]. intros Hdir Hrender. rewrite Heq.
    unfold generate_pdf_report. rewrite Hdir, Hrender. done.
Qed.

Lemma report_marker_routes_to_renderer_witness :
  outbox (handle_text lower_ascii env_all_ok initial_world
            {| t_uid := 1; t_text := SCENARIO_TEXT |})
  = [] ++ [REPORT_CREATED_REPLY
             (py "/tmp/telegram_media/report_1_1700000000.pdf")]
  ∧ (∃ path c,
       (path = report_pdf_path env_no_reportlab 1
        ∨ path = report_pdf_path env_no_reportlab 1 ++ py ".txt")
       ∧ outbox (handle_text lower_ascii env_no_reportlab initial_world
                   {| t_uid := 1; t_text := UPPER_SCENARIO_TEXT |})
         = [] ++ [REPORT_CREATED_REPLY path]
       ∧ files (handle_text lower_ascii env_no_reportlab initial_world
                  {| t_uid := 1; t_text := UPPER_SCENARIO_TEXT |})
         = [] ++ [(path, c)])
  ∧ outbox (handle_text lower_ascii env_empty_media_dir initial_world
              {| t_uid := 1; t_text := SCENARIO_TEXT |})
    = []
  ∧ outbox (handle_text lower_ascii env_all_ok initial_world
              {| t_uid := 1; t_text := UPPER_SCENARIO_TEXT |})
    = [] ++ [REPORT_CREATED_REPLY
               (py "/tmp/telegram_media/report_1_1700000000.pdf")]
  ∧ hist (user_context
            (handle_text lower_ascii env_all_ok initial_world
               {| t_uid := 1; t_text := SCENARIO_TEXT |})) 1
    = [mkTurn user SCENARIO_TEXT; mkTurn assistant (py "ok")].
Proof.
  split; [|split; [|split; [|split]]].
  - apply (proj2 (proj2 (proj2 (proj2 (proj2 (proj2
             report_marker_routes_to_renderer)))) lower_ascii
             env_all_ok initial_world 1%Z (py "ok") eq_refl eq_refl)
             eq_refl eq_refl).
  - apply (proj1 (proj2 (proj2 report_marker_routes_to_renderer))
             lower_ascii env_no_reportlab initial_world
             {| t_uid := 1; t_text := UPPER_SCENARIO_TEXT |} (py "ok")
             eq_refl eq_refl eq_refl (or_intror eq_refl)).
  - apply (proj1 (proj1 (proj2 (proj2 (proj2
             report_marker_routes_to_renderer))) lower_ascii
             env_empty_media_dir initial_world
             {| t_uid := 1; t_text := SCENARIO_TEXT |} (py "ok")
             eq_refl eq_refl eq_refl)).
  - apply (proj1 (proj2 (proj2 (proj2 (proj2
             report_marker_routes_to_renderer)))) lower_ascii
             env_all_ok initial_world
             {| t_uid := 1; t_text := UPPER_SCENARIO_TEXT |} (py "ok")
             lower_ascii_keeps_outer_space eq_refl eq_refl).
  - destruct (proj1 (proj2 report_marker_routes_to_renderer) lower_ascii
                env_all_ok initial_world
                {| t_uid := 1; t_text := SCENARIO_TEXT |} (py "ok")
                (bounded_empty CONTEXT_MAXLEN) eq_refl eq_refl)
      as (_ & _ & _ & _ & _).
    reflexivity.
Defined.

(** C10. The text protocol is not atomic on inference failure: the user turn
    is in the payload of the failing request (it was appended before the
    call), it is still the last turn of the sender's history after the
    failure, and the next request sent for the same user (whatever happened
    to other users in between) carries it right before the new user turn. *)
Theorem failed_request_keeps_user_turn :
  ∀ lower (e1 e2 : Env) (w w2 : World) (m1 m2 : TextMsg),
    bounded CONTEXT_MAXLEN (user_context w) →
    chat_completion e1 (request_payload w m1) = None →
    user_context w2 !! t_uid m1
      = user_context (handle_text lower e1 w m1) !! t_uid m1 →
    t_uid m2 = t_uid m1 →
    last (request_payload w m1) = Some (mkTurn user (strip (t_text m1)))
    ∧ last (hist (user_context (handle_text lower e1 w m1)) (t_uid m1))
      = Some (mkTurn user (strip (t_text m1)))
    ∧ ∃ pre,
        requests (handle_text lower e2 w2 m2)
        = requests w2
          ++ [mkTurn system SYSTEM_PROMPT
              :: pre ++ [mkTurn user (strip (t_text m1));
                         mkTurn user (strip (t_text m2))]].
Proof.
  intros lower e1 e2 w w2 m1 m2 Hb Hfail Hsame Huid.
  rewrite (handle_text_failure lower e1 w m1 Hfail) in *.
  cbn [user_context reply_to log_exception send_request set_context] in *.
  destruct (dispatch_hist_ends_with_text w m1 Hb) as [pre1 Hpre1].
  split; [|split].
  - unfold request_payload. rewrite Hpre1, app_comm_cons. apply last_snoc.
  - rewrite Hpre1. apply last_snoc.
  - rewrite handle_text_requests. unfold request_payload.
    unfold context_at_dispatch at 1. rewrite Huid. unfold push_user.
    assert (Hb1 : bounded CONTEXT_MAXLEN (context_at_dispatch w m1)).
    { unfold context_at_dispatch, push_user. by apply bounded_push. }
    rewrite hist_push_turn_at.
    2:{ intros d Hd. rewrite Hsame in Hd. by apply (Hb1 (t_uid m1)). }
    rewrite (hist_other_key (context_at_dispatch w m1) (user_context w2))
      by done.
    unfold context_at_dispatch at 1, push_user.
    rewrite hist_push_turn by done.
    rewrite last_n_app_absorb, <- app_assoc. cbn [app].
    destruct (last_n_keeps_suffix CONTEXT_MAXLEN (hist (user_context w) (t_uid m1))
                [mkTurn user (strip (t_text m1));
                 mkTurn user (strip (t_text m2))]) as [pre Hpre].
    { cbn. unfold CONTEXT_MAXLEN. lia. }
    exists pre. by rewrite Hpre.
Qed.

Lemma failed_request_keeps_user_turn_witness :
  ∃ pre,
    requests
      (handle_text lower_ascii env_all_ok
         (handle_text lower_ascii env_all_fail initial_world
            {| t_uid := 3; t_text := py "first" |})
         {| t_uid := 3; t_text := py "second" |})
    = requests (handle_text lower_ascii env_all_fail initial_world
                  {| t_uid := 3; t_text := py "first" |})
      ++ [mkTurn system SYSTEM_PROMPT
          :: pre ++ [mkTurn user (strip (py "first"));
                     mkTurn user (strip (py "second"))]].
Proof.
  apply (proj2 (proj2 (failed_request_keeps_user_turn lower_ascii
           env_all_fail env_all_ok initial_world
           (handle_text lower_ascii env_all_fail initial_world
              {| t_uid := 3; t_text := py "first" |})
           {| t_uid := 3; t_text := py "first" |}
           {| t_uid := 3; t_text := py "second" |}
           (bounded_empty CONTEXT_MAXLEN) eq_refl eq_refl eq_refl))).
Defined.

(** ** Media handlers *)

Lemma push_user_snapshot cap (uc : gmap Z deque) (uid : Z) (text : pystr) :
  bounded cap uc → 1 ≤ cap →
  snapshot (push_user cap uc uid text) uid
  = Some (last_n cap (hist uc uid ++ [mkTurn user text]))
  ∧ ∃ pre, last_n cap (hist uc uid ++ [mkTurn user text])
           = pre ++ [mkTurn user text].
Proof.
  intros Hb Hcap. split.
  - rewrite <- (hist_push_turn cap uc uid (mkTurn user text) Hb).
    apply snapshot_hist. unfold push_user. rewrite push_turn_lookup. eauto.
  - by apply last_n_keeps_suffix.
Qed.

(** C9. A document whose lower-cased file name does not end in ".pdf", or
    that has no file name, never changes the context store, whatever the
    external calls do; when the file is fetched, the directory made and the
    download done, the file is saved and the one reply names it. A ".pdf"
    document, once saved and both replies sent, has the user turn
    "[pdf:<path>]" as the last turn of the sender's history, and a photo,
    once saved and the reply sent, the user turn "[image:<path>]"; the
    history before it is kept up to the bound and no other user's entry
    changes. These are the only ways a media handler changes the store: if
    any call before [push_user] raises, nothing is recorded. *)
Theorem only_photos_and_pdfs_leave_placeholders :
  (∀ lower (e : Env) (w : World) (m : DocMsg),
     (∀ fname, d_file_name m = Some fname →
               endswith (lower fname) (py ".pdf") = false) →
     user_context (handle_document lower e w m) = user_context w
     ∧ ∀ path,
         get_file e (d_file_id m) = Some path →
         makedirs e (MEDIA_DIR e) = true →
         download_file e path (doc_local_path e m) = true →
         files (handle_document lower e w m)
         = files w ++ [(doc_local_path e m, Downloaded path)]
         ∧ outbox (handle_document lower e w m)
           = outbox w ++ [DOC_SAVED_REPLY (doc_name m)])
  ∧ (∀ lower (e : Env) (w : World) (m : DocMsg) fname path,
       bounded CONTEXT_MAXLEN (user_context w) →
       d_file_name m = Some fname →
       endswith (lower fname) (py ".pdf") = true →
       get_file e (d_file_id m) = Some path →
       makedirs e (MEDIA_DIR e) = true →
       download_file e path (doc_local_path e m) = true →
       reply_ok e (DOC_SAVED_REPLY fname) = true →
       reply_ok e PDF_PARSE_REPLY = true →
       (∃ pre,
          snapshot (user_context (handle_document lower e w m)) (d_uid m)
          = Some (pre ++ [mkTurn user
                            (py "[pdf:" ++ doc_local_path e m ++ py "]")]))
       ∧ snapshot (user_context (handle_document lower e w m)) (d_uid m)
         = Some (last_n 24
                   (hist (user_context w) (d_uid m)
                    ++ [mkTurn user
                          (py "[pdf:" ++ doc_local_path e m ++ py "]")]))
       ∧ (∀ v, v ≠ d_uid m →
               user_context (handle_document lower e w m) !! v
               = user_context w !! v)
       ∧ files (handle_document lower e w m)
         = files w ++ [(doc_local_path e m, Downloaded path)]
       ∧ outbox (handle_document lower e w m)
         = outbox w ++ [DOC_SAVED_REPLY fname; PDF_PARSE_REPLY])
  ∧ (∀ (e : Env) (w : World) (m : PhotoMsg) path,
       bounded CONTEXT_MAXLEN (user_context w) →
       get_file e (p_file_id m) = Some path →
       makedirs e (MEDIA_DIR e) = true →
       download_file e path (photo_local_path e m) = true →
       reply_ok e PHOTO_SAVED_REPLY = true →
       (∃ pre,
          snapshot (user_context (handle_photo e w m)) (p_uid m)
          = Some (pre ++ [mkTurn user
                            (py "[image:" ++ photo_local_path e m
                             ++ py "]")]))
       ∧ snapshot (user_context (handle_photo e w m)) (p_uid m)
         = Some (last_n 24
                   (hist (user_context w) (p_uid m)
                    ++ [mkTurn user
                          (py "[image:" ++ photo_local_path e m
                           ++ py "]")]))
       ∧ (∀ v, v ≠ p_uid m →
               user_context (handle_photo e w m) !! v
               = user_context w !! v)
       ∧ files (handle_photo e w m)
         = files w ++ [(photo_local_path e m, Downloaded path)]
       ∧ outbox (handle_photo e w m) = outbox w ++ [PHOTO_SAVED_REPLY])
  ∧ (∀ lower (e : Env) (w : World) (m : DocMsg),
       user_context (handle_document lower e w m) ≠ user_context w →
       ∃ fname path,
         d_file_name m = Some fname
         ∧ endswith (lower fname) (py ".pdf") = true
         ∧ get_file e (d_file_id m) = Some path
         ∧ makedirs e (MEDIA_DIR e) = true
         ∧ download_file e path (doc_local_path e m) = true
         ∧ reply_ok e (DOC_SAVED_REPLY fname) = true
         ∧ reply_ok e PDF_PARSE_REPLY = true)
  ∧ (∀ (e : Env) (w : World) (m : PhotoMsg),
       user_context (handle_photo e w m) ≠ user_context w →
       ∃ path,
         get_file e (p_file_id m) = Some path
         ∧ makedirs e (MEDIA_DIR e) = true
         ∧ download_file e path (photo_local_path e m) = true
         ∧ reply_ok e PHOTO_SAVED_REPLY = true).
Proof.
  split; [|split; [|split; [|split]]].
  - intros lower e w m Hext. unfold handle_document.
    fold (doc_local_path e m). split.
    + destruct (get_file e (d_file_id m)) as [path|]; [|done].
      destruct (makedirs e (MEDIA_DIR e)); [|done].
      destruct (download_file e path (doc_local_path e m)); [|done].
      destruct (reply_ok e (DOC_SAVED_REPLY (doc_name m))); [|done].
      destruct (d_file_name m) as [fname|] eqn:En; [|done].
      by rewrite (Hext fname eq_refl).
    + intros path Hget Hdir Hdl. rewrite Hget, Hdir, Hdl.
      destruct (reply_ok e (DOC_SAVED_REPLY (doc_name m))); [|done].
      destruct (d_file_name m) as [fname|] eqn:En; [|done].
      by rewrite (Hext fname eq_refl).
  - intros lower e w m fname path Hb Hname Hext Hget Hdir Hdl Hr1 Hr2.
    assert (Hdn : doc_name m = fname) by (unfold doc_name; by rewrite Hname).
    assert (Hctx : user_context (handle_document lower e w m)
                   = push_user CONTEXT_MAXLEN (user_context w) (d_uid m)
                       (py "[pdf:" ++ doc_local_path e m ++ py "]")).
    { unfold handle_document. fold (doc_local_path e m).
      by rewrite Hget, Hdir, Hdl, Hdn, Hr1, Hname, Hext, Hr2. }
    rewrite Hctx.
    destruct (push_user_snapshot CONTEXT_MAXLEN (user_context w) (d_uid m)
                (py "[pdf:" ++ doc_local_path e m ++ py "]") Hb)
      as [Hsnap [pre Hpre]]; [unfold CONTEXT_MAXLEN; lia|].
    split; [exists pre; by rewrite Hsnap, Hpre|].
    split; [exact Hsnap|].
    split; [intros v Hv; unfold push_user; by apply push_turn_other|].
    unfold handle_document. fold (doc_local_path e m).
    rewrite Hget, Hdir, Hdl, Hdn, Hr1, Hname, Hext, Hr2. cbn.
    rewrite <- app_assoc. done.
  - intros e w m path Hb Hget Hdir Hdl Hr.
    assert (Hctx : user_context (handle_photo e w m)
                   = push_user CONTEXT_MAXLEN (user_context w) (p_uid m)
                       (py "[image:" ++ photo_local_path e m ++ py "]")).
    { unfold handle_photo. fold (photo_local_path e m).
      by rewrite Hget, Hdir, Hdl, Hr. }
    rewrite Hctx.
    destruct (push_user_snapshot CONTEXT_MAXLEN (user_context w) (p_uid m)
                (py "[image:" ++ photo_local_path e m ++ py "]") Hb)
      as [Hsnap [pre Hpre]]; [unfold CONTEXT_MAXLEN; lia|].
    split; [exists pre; by rewrite Hsnap, Hpre|].
    split; [exact Hsnap|].
    split; [intros v Hv; unfold push_user; by apply push_turn_other|].
    unfold handle_photo. fold (photo_local_path e m).
    by rewrite Hget, Hdir, Hdl, Hr.
  - intros lower e w m. unfold handle_document. fold (doc_local_path e m).
    destruct (get_file e (d_file_id m)) as [path|]; [|done].
    destruct (makedirs e (MEDIA_DIR e)); [|done].
    destruct (download_file e path (doc_local_path e m)) eqn:Hdl; [|done].
    unfold doc_name.
    destruct (d_file_name m) as [fname|] eqn:En.
    + destruct (reply_ok e (DOC_SAVED_REPLY fname)) eqn:Hr1; [|done].
      destruct (endswith (lower fname) (py ".pdf")) eqn:Hext; [|done].
      destruct (reply_ok e PDF_PARSE_REPLY) eqn:Hr2; [|done].
      intros _. exists fname, path. done.
    + by destruct (reply_ok e _).
  - intros e w m. unfold handle_photo. fold (photo_local_path e m).
    destruct (get_file e (p_file_id m)) as [path|]; [|done].
    destruct (makedirs e (MEDIA_DIR e)); [|done].
    destruct (download_file e path (photo_local_path e m)) eqn:Hdl; [|done].
    destruct (reply_ok e PHOTO_SAVED_REPLY) eqn:Hr; [|done].
    intros _. exists path. done.
Qed.

Lemma only_photos_and_pdfs_leave_placeholders_witness :
  user_context
    (handle_document lower_ascii env_all_ok initial_world
       {| d_uid := 4; d_file_id := py "F1";
          d_file_name := Some (py "notes.TXT") |})
  = ∅
  ∧ snapshot
      (user_context
         (handle_document lower_ascii env_all_ok initial_world
            {| d_uid := 4; d_file_id := py "F2";
               d_file_name := Some (py "claim.PDF") |})) 4
    = Some (last_n 24
              (hist ∅ 4
               ++ [mkTurn user
                     (py "[pdf:/tmp/telegram_media/4_F2_claim.PDF]")]))
  ∧ snapshot
      (user_context
         (handle_photo env_all_ok initial_world
            {| p_uid := 4; p_file_id := py "F3" |})) 4
    = Some (last_n 24
              (hist ∅ 4
               ++ [mkTurn user (py "[image:/tmp/telegram_media/4_F3.jpg]")])).
Proof.
  split; [|split].
  - apply (proj1 (proj1 only_photos_and_pdfs_leave_placeholders
             lower_ascii env_all_ok initial_world
             {| d_uid := 4; d_file_id := py "F1";
                d_file_name := Some (py "notes.TXT") |}
             ltac:(intros fname [= <-]; reflexivity))).
  - apply (proj1 (proj2 (proj1 (proj2 only_photos_and_pdfs_leave_placeholders)
             lower_ascii env_all_ok initial_world
             {| d_uid := 4; d_file_id := py "F2";
                d_file_name := Some (py "claim.PDF") |}
             (py "claim.PDF") (py "photos/F2")
             (bounded_empty CONTEXT_MAXLEN)
             eq_refl eq_refl eq_refl eq_refl eq_refl eq_refl eq_refl))).
  - apply (proj1 (proj2 (proj1 (proj2 (proj2
             only_photos_and_pdfs_leave_placeholders))
             env_all_ok initial_world
             {| p_uid := 4; p_file_id := py "F3" |} (py "photos/F3")
             (bounded_empty CONTEXT_MAXLEN)
             eq_refl eq_refl eq_refl eq_refl))).
Defined.

(** ** The report fallback *)

Lemma substring_trans (a b c : pystr) :
  substring a b → substring b c → substring a c.
Proof.
  intros (l1 & r1 & ->) (l2 & r2 & ->).
  exists (l2 ++ l1), (r1 ++ r2). by rewrite <- !app_assoc.
Qed.

Lemma substring_take (n : nat) (s : pystr) : substring (take n s) s.
Proof. exists [], (drop n s). cbn. by rewrite take_drop. Qed.

Lemma splitlines_from_substring (n : nat) :
  ∀ (s cur line : pystr),
    length s ≤ n →
    In line (splitlines_from cur s) → substring line (rev cur ++ s).
Proof.
  induction n as [|n IH]; intros s cur line Hlen Hin.
  - destruct s; [|cbn in Hlen; lia].
    cbn in Hin. destruct cur; [done|].
    destruct Hin as [<-|[]]. exists [], []. by rewrite !app_nil_r.
  - destruct s as [|c s'].
    + cbn in Hin. destruct cur; [done|].
      destruct Hin as [<-|[]]. exists [], []. by rewrite !app_nil_r.
    + cbn in Hlen. cbn [splitlines_from] in Hin.
      assert (Hhead : substring (rev cur) (rev cur ++ c :: s')).
      { exists [], (c :: s'). reflexivity. }
      assert (Hrest : ∀ skipped rest,
                 c :: s' = skipped ++ rest → length rest ≤ n →
                 In line (splitlines_from [] rest) →
                 substring line (rev cur ++ c :: s')).
      { intros skipped rest Heq Hle Hl.
        apply (substring_trans _ rest).
        - apply (IH rest [] line Hle Hl).
        - exists (rev cur ++ skipped), []. rewrite Heq.
          by rewrite app_nil_r, <- app_assoc. }
      destruct (is_linebreak c).
      * destruct (c =? 13)%N.
        -- destruct s' as [|c' s''].
           ++ destruct Hin as [<-|Hin]; [exact Hhead|].
              apply (Hrest [c] []); [done | cbn; lia | done].
           ++ cbn in Hlen. destruct (c' =? 10)%N.
              ** destruct Hin as [<-|Hin]; [exact Hhead|].
                 apply (Hrest [c; c'] s''); [done | lia | done].
              ** destruct Hin as [<-|Hin]; [exact Hhead|].
                 apply (Hrest [c] (c' :: s'')); [done | cbn; lia | done].
        -- destruct Hin as [<-|Hin]; [exact Hhead|].
           apply (Hrest [c] s'); [done | lia | done].
      * assert (Hle : length s' ≤ n) by lia.
        pose proof (IH s' (c :: cur) line Hle Hin) as Hsub.
        cbn [rev] in Hsub. by rewrite <- app_assoc in Hsub.
Qed.

Lemma splitlines_substring (s line : pystr) :
  In line (splitlines s) → substring line s.
Proof.
  intros Hin. apply (splitlines_from_substring (length s) s [] line); done.
Qed.

Lemma draw_lines_text (lines : list pystr) :
  ∀ y s, In s (canvas_text (draw_lines y lines)) →
         ∃ line, In line lines ∧ s = slice_to 120 line.
Proof.
  induction lines as [|line rest IH]; intros y s Hin; [done|].
  cbn [draw_lines] in Hin.
  change (canvas_text (DrawString 60 y (slice_to 120 line) :: ?t))
    with (slice_to 120 line :: canvas_text t) in Hin.
  destruct Hin as [<-|Hin].
  - exists line. split; [by left | done].
  - destruct (y - 14 <? 100)%Z.
    + change (canvas_text (ShowPage :: ?t)) with (canvas_text t) in Hin.
      destruct (IH _ _ Hin) as (l & Hl & ->). exists l. split; [by right|done].
    + destruct (IH _ _ Hin) as (l & Hl & ->). exists l. split; [by right|done].
Qed.

Lemma fallback_has_user_line uid q a :
  substring (USER_LINE uid) (report_fallback_text uid q a).
Proof.
  unfold report_fallback_text.
  eexists (TXT_TITLE ++ BACKSLASH_N ++ BACKSLASH_N), _.
  rewrite <- !app_assoc. reflexivity.
Qed.

Lemma fallback_has_query uid q a :
  substring q (report_fallback_text uid q a).
Proof.
  unfold report_fallback_text.
  eexists ((TXT_TITLE ++ BACKSLASH_N ++ BACKSLASH_N)
           ++ (USER_LINE uid ++ BACKSLASH_N ++ BACKSLASH_N)
           ++ (TXT_REQUEST_HEADING ++ BACKSLASH_N)), _.
  rewrite <- !app_assoc. reflexivity.
Qed.

Lemma fallback_has_analysis_heading uid q a :
  substring ANALYSIS_HEADING (report_fallback_text uid q a).
Proof.
  unfold report_fallback_text.
  eexists ((TXT_TITLE ++ BACKSLASH_N ++ BACKSLASH_N)
           ++ (USER_LINE uid ++ BACKSLASH_N ++ BACKSLASH_N)
           ++ (TXT_REQUEST_HEADING ++ BACKSLASH_N)
           ++ (q ++ BACKSLASH_N ++ BACKSLASH_N)), _.
  rewrite <- !app_assoc. reflexivity.
Qed.

Lemma fallback_has_answer uid q a :
  substring a (report_fallback_text uid q a).
Proof.
  unfold report_fallback_text.
  eexists ((TXT_TITLE ++ BACKSLASH_N ++ BACKSLASH_N)
           ++ (USER_LINE uid ++ BACKSLASH_N ++ BACKSLASH_N)
           ++ (TXT_REQUEST_HEADING ++ BACKSLASH_N)
           ++ (q ++ BACKSLASH_N ++ BACKSLASH_N)
           ++ (ANALYSIS_HEADING ++ BACKSLASH_N)), _.
  rewrite <- !app_assoc. reflexivity.
Qed.

Lemma canvas_text_in_fallback uid q a s :
  In s (canvas_text (report_canvas uid q a)) →
  s = PDF_TITLE ∨ s = PDF_REQUEST_HEADING
  ∨ contains (report_fallback_text uid q a) s = true.
Proof.
  unfold report_canvas, canvas_text. rewrite omap_app. cbn [omap app].
  fold (canvas_text (draw_lines 680 (splitlines a) ++ [ShowPage; Save])).
  intros [<-|[<-|[<-|[<-|[<-|Hin]]]]]; eauto.
  - right; right. apply contains_spec, fallback_has_user_line.
  - right; right. apply contains_spec.
    eapply substring_trans; [apply substring_take | apply fallback_has_query].
  - right; right. apply contains_spec, fallback_has_analysis_heading.
  - right; right. unfold canvas_text in Hin. rewrite omap_app in Hin.
    cbn [omap] in Hin. rewrite app_nil_r in Hin.
    destruct (draw_lines_text _ _ _ Hin) as (line & Hline & ->).
    apply contains_spec.
    eapply substring_trans; [apply substring_take|].
    eapply substring_trans; [by apply splitlines_substring|].
    apply fallback_has_answer.
Qed.

Lemma app_nonempty_neq (s t : pystr) : t ≠ [] → s ++ t ≠ s.
Proof.
  intros Hne Heq. apply (f_equal length) in Heq.
  rewrite length_app in Heq. destruct t; [done | cbn in Heq; lia].
Qed.

(** C6, as the code has it. When the ReportLab block fails, the directory
    having been made, [generate_pdf_report] opens the PDF path with ".txt"
    appended and writes the fallback text. If that succeeds it returns
    that path, one text file has been written and nothing was sent to the
    user; inside [handle_text] the only reply is then the report notice
    with that path. If writing the text file raises as well, the exception
    escapes: no path is returned and [handle_text] sends no reply at all.
    In neither case does the user get an error message. The text file
    carries the user line, the whole request and the whole assistant text,
    and every string the PDF would have shown other than its title and its
    request heading occurs in it (the PDF cuts the request at 1000 and each
    line at 120 characters, the file does not). *)
Theorem renderer_failure_falls_back_to_text :
  (∀ (e : Env) (w : World) uid q a,
     makedirs e (MEDIA_DIR e) = true →
     render_pdf e (report_pdf_path e uid) (report_canvas uid q a) = false →
     write_text e (report_pdf_path e uid ++ py ".txt")
       (report_fallback_text uid q a) = Written →
     generate_pdf_report e w uid q a
     = (Some (report_pdf_path e uid ++ py ".txt"),
        write_file w (report_pdf_path e uid ++ py ".txt")
          (TextFile (report_fallback_text uid q a)))
     ∧ endswith (report_pdf_path e uid ++ py ".txt") (py ".txt") = true
     ∧ report_pdf_path e uid ++ py ".txt" ≠ report_pdf_path e uid
     ∧ outbox (generate_pdf_report e w uid q a).2 = outbox w
     ∧ user_context (generate_pdf_report e w uid q a).2 = user_context w)
  ∧ (∀ (e : Env) (w : World) uid q a left_behind,
       makedirs e (MEDIA_DIR e) = true →
       render_pdf e (report_pdf_path e uid) (report_canvas uid q a) = false →
       write_text e (report_pdf_path e uid ++ py ".txt")
         (report_fallback_text uid q a) = WriteRaised left_behind →
       (generate_pdf_report e w uid q a).1 = None
       ∧ outbox (generate_pdf_report e w uid q a).2 = outbox w
       ∧ user_context (generate_pdf_report e w uid q a).2 = user_context w)
  ∧ (∀ uid q a,
       contains (report_fallback_text uid q a) (USER_LINE uid) = true
       ∧ contains (report_fallback_text uid q a) q = true
       ∧ contains (report_fallback_text uid q a) a = true
       ∧ ∀ s, In s (canvas_text (report_canvas uid q a)) →
              s = PDF_TITLE ∨ s = PDF_REQUEST_HEADING
              ∨ contains (report_fallback_text uid q a) s = true)
  ∧ (∀ lower (e : Env) (w : World) (m : TextMsg) raw,
       chat_completion e (request_payload w m) = Some raw →
       wants_report lower (strip (t_text m)) = true →
       render_pdf e (report_pdf_path e (t_uid m))
         (report_canvas (t_uid m) (strip (t_text m)) (strip raw)) = false →
       (makedirs e (MEDIA_DIR e) = true →
        write_text e (report_pdf_path e (t_uid m) ++ py ".txt")
          (report_fallback_text (t_uid m) (strip (t_text m)) (strip raw))
        = Written →
        outbox (handle_text lower e w m)
        = outbox w
          ++ [REPORT_CREATED_REPLY
                (report_pdf_path e (t_uid m) ++ py ".txt")])
       ∧ (∀ left_behind,
            makedirs e (MEDIA_DIR e) = true →
            write_text e (report_pdf_path e (t_uid m) ++ py ".txt")
              (report_fallback_text (t_uid m) (strip (t_text m))
                 (strip raw))
            = WriteRaised left_behind →
            outbox (handle_text lower e w m) = outbox w)
       ∧ (outbox (handle_text lower e w m) = outbox w
          ∨ outbox (handle_text lower e w m)
            = outbox w
              ++ [REPORT_CREATED_REPLY
                    (report_pdf_path e (t_uid m) ++ py ".txt")])).
Proof.
  split; [|split; [|split]].
  - intros e w uid q a Hdir Hfail Hw. unfold generate_pdf_report.
    rewrite Hdir, Hfail, Hw. cbn [fst snd outbox user_context write_file].
    split; [done|]. split; [apply endswith_app|].
    split; [by apply app_nonempty_neq|]. done.
  - intros e w uid q a lb Hdir Hfail Hw. unfold generate_pdf_report.
    rewrite Hdir, Hfail, Hw. by destruct lb.
  - intros uid q a. split; [|split; [|split]].
    + apply contains_spec, fallback_has_user_line.
    + apply contains_spec, fallback_has_query.
    + apply contains_spec, fallback_has_answer.
    + intros s. apply canvas_text_in_fallback.
  - intros lower e w m raw Hok Hwant Hfail.
    rewrite (handle_text_success lower e w m raw Hok), Hwant.
    unfold finish_report, generate_pdf_report. rewrite Hfail.
    split; [|split].
    + intros Hdir Hw. by rewrite Hdir, Hw.
    + intros lb Hdir Hw. rewrite Hdir, Hw. by destruct lb.
    + destruct (makedirs e (MEDIA_DIR e)); [|by left].
      destruct (write_text e _ _) as [|[part|]]; [by right | by left | by left].
Qed.

Lemma renderer_failure_falls_back_to_text_witness :
  generate_pdf_report env_no_reportlab initial_world 1 (py "q") (py "a")
  = (Some (py "/tmp/telegram_media/report_1_1700000000.pdf.txt"),
     write_file initial_world
       (py "/tmp/telegram_media/report_1_1700000000.pdf.txt")
       (TextFile (report_fallback_text 1 (py "q") (py "a"))))
  ∧ (generate_pdf_report env_no_report_at_all initial_world 1 (py "q")
       (py "a")).1 = None
  ∧ outbox (handle_text lower_ascii env_no_reportlab initial_world
              {| t_uid := 1; t_text := SCENARIO_TEXT |})
    = [] ++ [REPORT_CREATED_REPLY
               (py "/tmp/telegram_media/report_1_1700000000.pdf.txt")]
  ∧ outbox (handle_text lower_ascii env_no_report_at_all initial_world
              {| t_uid := 1; t_text := SCENARIO_TEXT |})
    = [].
Proof.
  split; [|split; [|split]].
  - apply (proj1 (proj1 renderer_failure_falls_back_to_text
             env_no_reportlab initial_world 1%Z (py "q") (py "a")
             eq_refl eq_refl eq_refl)).
  - apply (proj1 (proj1 (proj2 renderer_failure_falls_back_to_text)
             env_no_report_at_all initial_world 1%Z (py "q") (py "a") None
             eq_refl eq_refl eq_refl)).
  - apply (proj1 (proj2 (proj2 (proj2 renderer_failure_falls_back_to_text))
             lower_ascii env_no_reportlab initial_world
             {| t_uid := 1; t_text := SCENARIO_TEXT |} (py "ok")
             eq_refl eq_refl eq_refl) eq_refl eq_refl).
  - apply (proj1 (proj2 (proj2 (proj2 (proj2
             renderer_failure_falls_back_to_text))
             lower_ascii env_no_report_at_all initial_world
             {| t_uid := 1; t_text := SCENARIO_TEXT |} (py "ok")
             eq_refl eq_refl eq_refl)) None eq_refl eq_refl).
Defined.

(** C6, as stated, fails: the text written by the fallback is not the text
    the PDF would have shown. For user 1, request "q" and answer "a" the PDF
    shows its title and its request heading, and neither occurs in the text
    file; for a request of 1001 letters the text file holds the whole
    request, which no string of the PDF contains. *)
Lemma fallback_text_is_not_the_rendered_text :
  generate_pdf_report env_no_reportlab initial_world 1 (py "q") (py "a")
  = (Some (py "/tmp/telegram_media/report_1_1700000000.pdf.txt"),
     write_file initial_world
       (py "/tmp/telegram_media/report_1_1700000000.pdf.txt")
       (TextFile (report_fallback_text 1 (py "q") (py "a"))))
  ∧ In PDF_TITLE (canvas_text (report_canvas 1 (py "q") (py "a")))
  ∧ contains (report_fallback_text 1 (py "q") (py "a")) PDF_TITLE = false
  ∧ In PDF_REQUEST_HEADING (canvas_text (report_canvas 1 (py "q") (py "a")))
  ∧ contains (report_fallback_text 1 (py "q") (py "a")) PDF_REQUEST_HEADING
    = false
  ∧ ¬ (∀ s, In s (canvas_text (report_canvas 1 (py "q") (py "a"))) →
            contains (report_fallback_text 1 (py "q") (py "a")) s = true)
  ∧ contains (report_fallback_text 1 (replicate 1001 120%N) (py "a"))
      (replicate 1001 120%N) = true
  ∧ forallb (fun s => negb (contains s (replicate 1001 120%N)))
      (canvas_text (report_canvas 1 (replicate 1001 120%N) (py "a")))
    = true.
Proof.
  split; [reflexivity|].
  split; [left; reflexivity|].
  split; [vm_compute; reflexivity|].
  split; [right; right; left; reflexivity|].
  split; [vm_compute; reflexivity|].
  split.
  - intros Hall. specialize (Hall PDF_TITLE (or_introl eq_refl)).
    vm_compute in Hall. discriminate.
  - split; vm_compute; reflexivity.
Qed.

(** ** Startup *)

(** C8, as the code has it. A credential that is absent (or empty) aborts
    startup: with the credentials error as soon as the imports of the bot
    and inference libraries have succeeded, before the bot object is built
    and before the database is touched. It is not the only way startup
    aborts: startup aborts exactly when those imports fail, or a credential
    is absent or empty, or building the bot object from the token raises,
    or SQLAlchemy is importable, DATABASE_URL is set and non-empty and the
    database initialisation raises. Inside [handle_text] the failures of
    the inference call and of the renderer are caught: the handler replies
    whenever, for a report, the media directory can be made and the text
    file can be written. *)
Theorem startup_aborts_on_missing_credentials :
  (∀ e : StartupEnv,
     getenv e (py "TELEGRAM_BOT_TOKEN") = None
     ∨ getenv e (py "OPENAI_API_KEY") = None →
     aborted (startup e) = true
     ∧ (core_importable e = true → startup e = CredentialsError))
  ∧ (∀ e : StartupEnv,
       startup e = CredentialsError ↔
       core_importable e = true
       ∧ (absent_or_empty (getenv e (py "TELEGRAM_BOT_TOKEN"))
          ∨ absent_or_empty (getenv e (py "OPENAI_API_KEY"))))
  ∧ (∀ e : StartupEnv,
       aborted (startup e) = true ↔
       core_importable e = false
       ∨ (absent_or_empty (getenv e (py "TELEGRAM_BOT_TOKEN"))
          ∨ absent_or_empty (getenv e (py "OPENAI_API_KEY")))
       ∨ telebot_init e (default [] (getenv e (py "TELEGRAM_BOT_TOKEN")))
         = false
       ∨ (sqlalchemy_importable e = true
          ∧ ∃ url, getenv e (py "DATABASE_URL") = Some url ∧ url ≠ []
                   ∧ database_init e url = false))
  ∧ (∀ lower (e : Env) (w : World) (m : TextMsg),
       (wants_report lower (strip (t_text m)) = true →
        makedirs e (MEDIA_DIR e) = true
        ∧ ∀ path content, write_text e path content = Written) →
       ∃ reply, outbox (handle_text lower e w m) = outbox w ++ [reply]).
Proof.
  assert (Htruthy : ∀ o, truthy o = false ↔ absent_or_empty o).
  { intros [[|c s]|]; cbn; unfold absent_or_empty; split; intros H;
      first [reflexivity | discriminate | by left | by right
            | destruct H; discriminate]. }
  assert (Hcreds : ∀ e : StartupEnv,
            negb (truthy (getenv e (py "TELEGRAM_BOT_TOKEN")))
            || negb (truthy (getenv e (py "OPENAI_API_KEY"))) = true ↔
            absent_or_empty (getenv e (py "TELEGRAM_BOT_TOKEN"))
            ∨ absent_or_empty (getenv e (py "OPENAI_API_KEY"))).
  { intros e. rewrite <- !Htruthy.
    destruct (truthy _), (truthy _); cbn; split; auto;
      intros [H|H]; discriminate. }
  assert (Hcred : ∀ e : StartupEnv,
            startup e = CredentialsError ↔
            core_importable e = true
            ∧ (absent_or_empty (getenv e (py "TELEGRAM_BOT_TOKEN"))
               ∨ absent_or_empty (getenv e (py "OPENAI_API_KEY")))).
  { intros e. rewrite <- Hcreds. unfold startup.
    destruct (core_importable e); cbn [negb];
      [|split; [done | intros [? _]; done]].
    destruct (negb _ || negb _); [done|].
    split; [|intros [_ ?]; done].
    destruct (negb (telebot_init e _)); [done|].
    destruct (sqlalchemy_importable e); [|done].
    destruct (getenv e (py "DATABASE_URL")) as [[|c url]|]; try done.
    by destruct (database_init e (c :: url)). }
  split; [|split; [exact Hcred|split]].
  - intros e Hnone.
    assert (Habs : absent_or_empty (getenv e (py "TELEGRAM_BOT_TOKEN"))
                   ∨ absent_or_empty (getenv e (py "OPENAI_API_KEY"))).
    { destruct Hnone as [H|H]; [left|right]; by left. }
    split.
    + apply Hcreds in Habs. unfold startup.
      destruct (core_importable e); cbn [negb]; [|done]. by rewrite Habs.
    + intros Himp. by apply Hcred.
  - intros e. rewrite <- Hcreds. unfold startup.
    destruct (core_importable e); cbn [negb]; [|split; [by left | done]].
    destruct (negb _ || negb _); [split; [by right; left | done]|].
    destruct (telebot_init e _); cbn [negb];
      [|split; [by right; right; left | done]].
    destruct (sqlalchemy_importable e).
    + destruct (getenv e (py "DATABASE_URL")) as [[|c url]|] eqn:Hurl.
      * split; [done|].
        intros [?|[?|[?|(_ & url & [= <-] & Hne & _)]]]; done.
      * destruct (database_init e (c :: url)) eqn:Hdb.
        -- split; [done|].
           intros [?|[?|[?|(_ & url' & [= <-] & _ & Hdb')]]]; try done.
           congruence.
        -- split; [|done]. intros _. right; right; right.
           split; [done|]. by exists (c :: url).
      * split; [done|].
        intros [?|[?|[?|(_ & url & ? & _)]]]; done.
    + split; [done|]. intros [?|[?|[?|(? & _)]]]; done.
  - intros lower e w m Hrep.
    destruct (chat_completion e (request_payload w m)) as [raw|] eqn:E.
    + rewrite (handle_text_success lower e w m raw E).
      destruct (wants_report lower (strip (t_text m))).
      * destruct (Hrep eq_refl) as [Hdir Hw].
        destruct (generate_pdf_report_returns e (after_reply w m raw)
                    (t_uid m) (strip (t_text m)) (strip raw) Hdir
                    (or_intror (Hw _ _))) as (path & c & -> & _).
        eexists. reflexivity.
      * eexists. reflexivity.
    + rewrite (handle_text_failure lower e w m E). eexists. reflexivity.
Qed.

Lemma startup_aborts_on_missing_credentials_witness :
  aborted (startup env_unset) = true
  ∧ startup env_unset = CredentialsError
  ∧ ∃ reply,
      outbox (handle_text lower_ascii env_no_reportlab initial_world
                {| t_uid := 1; t_text := SCENARIO_TEXT |})
      = [] ++ [reply].
Proof.
  split; [|split].
  - apply (proj1 (proj1 startup_aborts_on_missing_credentials env_unset
             (or_introl eq_refl))).
  - apply (proj2 (proj1 startup_aborts_on_missing_credentials env_unset
             (or_introl eq_refl)) eq_refl).
  - apply (proj2 (proj2 (proj2 startup_aborts_on_missing_credentials))
             lower_ascii env_no_reportlab initial_world
             {| t_uid := 1; t_text := SCENARIO_TEXT |}).
    intros _. split; reflexivity.
Defined.

(** C8, as stated, fails: with both credentials present startup still
    aborts when the database cannot be initialised, and when the bot object
    cannot be built from the token. *)
Lemma database_failure_is_fatal_too :
  getenv env_database_down (py "TELEGRAM_BOT_TOKEN") = Some (py "123:abc")
  ∧ getenv env_database_down (py "OPENAI_API_KEY") = Some (py "sk-test")
  ∧ startup env_database_down = DatabaseError
  ∧ aborted (startup env_database_down) = true
  ∧ getenv env_bad_token (py "TELEGRAM_BOT_TOKEN") = Some (py "abc")
  ∧ getenv env_bad_token (py "OPENAI_API_KEY") = Some (py "sk-test")
  ∧ startup env_bad_token = BotInitError.
Proof. vm_compute. repeat split; reflexivity. Qed.

(** ** Every handler keeps the store bounded *)

Lemma cmd_start_bounded (w : World) (uid : Z) :
  bounded CONTEXT_MAXLEN (user_context w) →
  bounded CONTEXT_MAXLEN (user_context (cmd_start w uid)).
Proof. intros Hb. cbn. by apply bounded_ensure. Qed.

Lemma handle_photo_bounded (e : Env) (w : World) (m : PhotoMsg) :
  bounded CONTEXT_MAXLEN (user_context w) →
  bounded CONTEXT_MAXLEN (user_context (handle_photo e w m)).
Proof.
  intros Hb. unfold handle_photo.
  destruct (get_file e (p_file_id m)) as [path|]; [|done].
  destruct (makedirs e (MEDIA_DIR e)); [|done].
  destruct (download_file e path _); [|done].
  destruct (reply_ok e PHOTO_SAVED_REPLY); [|done].
  cbn. by apply bounded_push.
Qed.

Lemma handle_document_bounded lower (e : Env) (w : World) (m : DocMsg) :
  bounded CONTEXT_MAXLEN (user_context w) →
  bounded CONTEXT_MAXLEN (user_context (handle_document lower e w m)).
Proof.
  intros Hb. unfold handle_document.
  destruct (get_file e (d_file_id m)) as [path|]; [|done].
  destruct (makedirs e (MEDIA_DIR e)); [|done].
  destruct (download_file e path _); [|done].
  destruct (reply_ok e (DOC_SAVED_REPLY _)); [|done].
  destruct (d_file_name m) as [fname|]; [|done].
  destruct (endswith _ _); [|done].
  destruct (reply_ok e PDF_PARSE_REPLY); [|done].
  cbn. by apply bounded_push.
Qed.

Lemma handle_text_bounded lower (e : Env) (w : World) (m : TextMsg) :
  bounded CONTEXT_MAXLEN (user_context w) →
  bounded CONTEXT_MAXLEN (user_context (handle_text lower e w m)).
Proof.
  intros Hb.
  assert (Hb1 : bounded CONTEXT_MAXLEN (context_at_dispatch w m)).
  { unfold context_at_dispatch, push_user. by apply bounded_push. }
  destruct (chat_completion e (request_payload w m)) as [raw|] eqn:E.
  - rewrite (handle_text_success lower e w m raw E).
    assert (Hb2 : bounded CONTEXT_MAXLEN (user_context (after_reply w m raw))).
    { cbn. unfold push_assistant. by apply bounded_push. }
    destruct (wants_report lower (strip (t_text m))); [|done].
    by rewrite (proj1 (report_branch_frame _ _ _ _ _)).
  - by rewrite (handle_text_failure lower e w m E).
Qed.

(** ** Runs on concrete inputs *)

Example str_of_int_examples :
  str_of_int 42 = py "42" ∧ str_of_int (-7) = py "-7"
  ∧ str_of_int 0 = py "0".
Proof. repeat split; reflexivity. Qed.

Example strip_example : strip (py "  a b ") = py "a b".
Proof. reflexivity. Qed.

Example splitlines_example :
  splitlines [97; 10; 10; 98; 13; 10; 99; 10]%N = [[97]; []; [98]; [99]]%N.
Proof. reflexivity. Qed.

Example path_join_examples :
  path_join (py "/tmp/telegram_media") (py "1_F.jpg")
  = py "/tmp/telegram_media/1_F.jpg"
  ∧ path_join (py "media/") (py "x") = py "media/x"
  ∧ path_join [] (py "x") = py "x".
Proof. repeat split; reflexivity. Qed.

Example plain_text_is_echoed :
  outbox (handle_text lower_ascii env_all_ok initial_world
            {| t_uid := 1; t_text := py "hello" |})
  = [py "ok"].
Proof. reflexivity. Qed.

Example twenty_five_pushes_keep_twenty_four :
  length
    (hist (run_ops CONTEXT_MAXLEN ∅
             (map (fun i => RecordUser 9 (str_of_int (Z.of_nat i))) (seq 0 25)))
       9)
  = 24
  ∧ head
      (hist (run_ops CONTEXT_MAXLEN ∅
               (map (fun i => RecordUser 9 (str_of_int (Z.of_nat i)))
                  (seq 0 25)))
         9)
    = Some (mkTurn user (py "1")).
Proof. vm_compute. split; reflexivity. Qed.

(** ** Further properties of the context buffer *)

#[local] Set Warnings "-clear-no-such-hyp".

Lemma ensure_context_dom cap (uc : gmap Z deque) (uid : Z) :
  dom (ensure_context cap uc uid) = {[uid]} ∪ dom uc.
Proof.
  unfold ensure_context. destruct (uc !! uid) as [d|] eqn:E.
  - assert (uid ∈ dom uc) by (apply elem_of_dom; eauto). set_solver.
  - by rewrite dom_insert_L.
Qed.

Lemma run_op_dom cap (uc : gmap Z deque) (op : buffer_op) :
  dom (run_op cap uc op) = {[op_uid op]} ∪ dom uc.
Proof.
  destruct op; cbn; unfold push_user, push_assistant, push_turn;
    rewrite ?dom_alter_L; apply ensure_context_dom.
Qed.

(** X1. From a store of bounded deques, whenever the history of a user
    can be read after a sequence of ensure, recordUser and recordAssistant
    calls, it is the last N turns of the history before the calls followed
    by the turns the calls recorded for that user, in call order. *)
Theorem snapshot_after_calls :
  ∀ N (uc : gmap Z deque) ops uid h,
    bounded N uc →
    snapshot (run_ops N uc ops) uid = Some h →
    h = last_n N (default [] (snapshot uc uid) ++ turns_for uid ops).
Proof.
  intros N uc ops uid h Hb Hs.
  pose proof (run_ops_hist N ops uc uid Hb) as Hh.
  unfold hist in Hh. rewrite Hs in Hh. exact Hh.
Qed.

Lemma snapshot_after_calls_witness :
  [mkTurn assistant (py "b"); mkTurn user (py "c")]
  = last_n 2 (default [] (snapshot (∅ : gmap Z deque) 1)
              ++ turns_for 1 [RecordUser 1 (py "a"); RecordUser 2 (py "z");
                              RecordAssistant 1 (py "b");
                              RecordUser 1 (py "c")]).
Proof.
  apply (snapshot_after_calls 2 ∅
           [RecordUser 1 (py "a"); RecordUser 2 (py "z");
            RecordAssistant 1 (py "b"); RecordUser 1 (py "c")] 1%Z
           [mkTurn assistant (py "b"); mkTurn user (py "c")]
           (bounded_empty 2) eq_refl).
Defined.

(** X2. The store never forgets a user: after any sequence of calls its
    keys are the keys it had together with the user of every call, an
    [ensure_context] call included. *)
Theorem users_after_calls :
  ∀ N (uc : gmap Z deque) ops,
    dom (run_ops N uc ops) = dom uc ∪ list_to_set (op_uid <$> ops).
Proof.
  intros N uc ops. revert uc.
  induction ops as [|op ops IH]; intros uc.
  - cbn. set_solver.
  - cbn [run_ops fold_left]. unfold run_ops in IH.
    rewrite IH, run_op_dom. cbn. set_solver.
Qed.

(** ** Invariants of the handlers *)

Lemma dialogue_only_empty : dialogue_only ∅.
Proof. intros uid d H. by rewrite lookup_empty in H. Qed.

Lemma dialogue_only_ensure cap (uc : gmap Z deque) (uid : Z) :
  dialogue_only uc → dialogue_only (ensure_context cap uc uid).
Proof.
  intros Hd v d Hv. destruct (decide (uid = v)) as [->|Hne].
  - rewrite ensure_context_lookup in Hv. injection Hv as <-.
    destruct (uc !! v) as [d'|] eqn:E; cbn; [by apply (Hd v) | constructor].
  - rewrite ensure_context_other in Hv by done. by apply (Hd v).
Qed.

Lemma dialogue_only_push cap (uc : gmap Z deque) (uid : Z) (t : Turn) :
  role t ≠ system →
  dialogue_only uc → dialogue_only (push_turn cap uc uid t).
Proof.
  intros Ht Hd v d Hv. destruct (decide (uid = v)) as [->|Hne].
  - rewrite push_turn_lookup in Hv. injection Hv as <-.
    assert (Hall : Forall (fun t => role t ≠ system)
                     (items (default (deque_new cap) (uc !! v)) ++ [t])).
    { apply Forall_app. split; [|by repeat constructor].
      destruct (uc !! v) as [d'|] eqn:E; cbn; [by apply (Hd v) | constructor]. }
    unfold deque_append. cbn [items].
    destruct (_ <? _); [|done].
    destruct (items _ ++ [t]) as [|x xs]; [constructor|].
    cbn. by inversion Hall.
  - rewrite push_turn_other in Hv by done. by apply (Hd v).
Qed.

Lemma cmd_newcase_context (e : CaseEnv) (w : World) (m : TextMsg) :
  user_context (cmd_newcase e w m).1 = user_context w.
Proof.
  unfold cmd_newcase. destruct (SessionLocal e) as [session|]; [|done].
  by destruct (session _).
Qed.

Lemma handle_event_bounded lower (w : World) (ev : event) :
  bounded CONTEXT_MAXLEN (user_context w) →
  bounded CONTEXT_MAXLEN (user_context (handle_event lower w ev)).
Proof.
  destruct ev; cbn [handle_event]; intros Hb.
  - by apply cmd_start_bounded.
  - by rewrite cmd_newcase_context.
  - by apply handle_photo_bounded.
  - by apply handle_document_bounded.
  - by apply handle_text_bounded.
Qed.

Lemma handle_event_dialogue_only lower (w : World) (ev : event) :
  dialogue_only (user_context w) →
  dialogue_only (user_context (handle_event lower w ev)).
Proof.
  destruct ev as [uid | e m | e m | e m | e m]; cbn [handle_event]; intros Hd.
  - cbn. by apply dialogue_only_ensure.
  - by rewrite cmd_newcase_context.
  - unfold handle_photo.
    destruct (get_file e (p_file_id m)) as [path|]; [|done].
    destruct (makedirs e (MEDIA_DIR e)); [|done].
    destruct (download_file e path _); [|done].
    destruct (reply_ok e PHOTO_SAVED_REPLY); [|done].
    cbn. by apply dialogue_only_push.
  - unfold handle_document.
    destruct (get_file e (d_file_id m)) as [path|]; [|done].
    destruct (makedirs e (MEDIA_DIR e)); [|done].
    destruct (download_file e path _); [|done].
    destruct (reply_ok e (DOC_SAVED_REPLY _)); [|done].
    destruct (d_file_name m) as [fname|]; [|done].
    destruct (endswith _ _); [|done].
    destruct (reply_ok e PDF_PARSE_REPLY); [|done].
    cbn. by apply dialogue_only_push.
  - assert (Hd1 : dialogue_only (context_at_dispatch w m)).
    { unfold context_at_dispatch, push_user. by apply dialogue_only_push. }
    destruct (chat_completion e (request_payload w m)) as [raw|] eqn:E.
    + rewrite (handle_text_success lower e w m raw E).
      assert (Hd2 : dialogue_only (user_context (after_reply w m raw))).
      { cbn. unfold push_assistant. by apply dialogue_only_push. }
      destruct (wants_report lower (strip (t_text m))); [|done].
      by rewrite (proj1 (report_branch_frame _ _ _ _ _)).
    + by rewrite (handle_text_failure lower e w m E).
Qed.

(** X3. Whatever updates arrive, in whatever order and with whatever
    outcome of the external calls, every history the bot holds has at most
    24 turns, every deque keeps the bound 24, and no stored turn has the
    role system: this holds in every world reached from one where it
    holds, the initial world among them. *)
Theorem handlers_keep_histories_bounded :
  ∀ lower (evs : list event) (w : World),
    bounded CONTEXT_MAXLEN (user_context w) →
    dialogue_only (user_context w) →
    bounded CONTEXT_MAXLEN (user_context (run_events lower w evs))
    ∧ dialogue_only (user_context (run_events lower w evs))
    ∧ ∀ uid h,
        snapshot (user_context (run_events lower w evs)) uid = Some h →
        length h ≤ 24 ∧ Forall (fun t => role t ≠ system) h.
Proof.
  intros lower evs. induction evs as [|ev evs IH]; intros w Hb Hd.
  - cbn [run_events fold_left].
    split; [done|]. split; [done|]. intros uid h Hs. unfold snapshot in Hs.
    destruct (user_context w !! uid) as [d|] eqn:E; [|done].
    injection Hs as <-. split; [exact (proj2 (Hb uid d E)) | by apply (Hd uid)].
  - cbn [run_events fold_left]. apply IH.
    + by apply handle_event_bounded.
    + by apply handle_event_dialogue_only.
Qed.

Lemma handlers_keep_histories_bounded_witness :
  bounded CONTEXT_MAXLEN
    (user_context
       (run_events lower_ascii initial_world
          [EvStart 1; EvText env_all_ok {| t_uid := 1; t_text := py "hi" |};
           EvPhoto env_all_ok {| p_uid := 2; p_file_id := py "F" |}])).
Proof.
  apply (proj1 (handlers_keep_histories_bounded lower_ascii
           [EvStart 1; EvText env_all_ok {| t_uid := 1; t_text := py "hi" |};
            EvPhoto env_all_ok {| p_uid := 2; p_file_id := py "F" |}]
           initial_world (bounded_empty CONTEXT_MAXLEN) dialogue_only_empty)).
Defined.

Lemma handle_event_other lower (w : World) (ev : event) (v : Z) :
  event_uid ev ≠ v →
  user_context (handle_event lower w ev) !! v = user_context w !! v.
Proof.
  destruct ev as [uid | e m | e m | e m | e m];
    cbn [handle_event event_uid]; intros Hne.
  - cbn. by apply ensure_context_other.
  - by rewrite cmd_newcase_context.
  - unfold handle_photo.
    destruct (get_file e (p_file_id m)) as [path|]; [|done].
    destruct (makedirs e (MEDIA_DIR e)); [|done].
    destruct (download_file e path _); [|done].
    destruct (reply_ok e PHOTO_SAVED_REPLY); [|done].
    cbn. by apply push_turn_other.
  - unfold handle_document.
    destruct (get_file e (d_file_id m)) as [path|]; [|done].
    destruct (makedirs e (MEDIA_DIR e)); [|done].
    destruct (download_file e path _); [|done].
    destruct (reply_ok e (DOC_SAVED_REPLY _)); [|done].
    destruct (d_file_name m) as [fname|]; [|done].
    destruct (endswith _ _); [|done].
    destruct (reply_ok e PDF_PARSE_REPLY); [|done].
    cbn. by apply push_turn_other.
  - destruct (chat_completion e (request_payload w m)) as [raw|] eqn:E.
    + rewrite (handle_text_success lower e w m raw E).
      assert (Hctx : user_context (after_reply w m raw) !! v
                     = user_context w !! v).
      { cbn. unfold push_assistant, context_at_dispatch, push_user.
        by rewrite !push_turn_other. }
      destruct (wants_report lower (strip (t_text m))); [|done].
      by rewrite (proj1 (report_branch_frame _ _ _ _ _)).
    + rewrite (handle_text_failure lower e w m E). cbn.
      unfold context_at_dispatch, push_user. by apply push_turn_other.
Qed.

(** X4. Updates from other users never touch a user's history: after any
    sequence of updates none of which comes from user v (commands, photos,
    documents and texts, whatever the external calls do), the store entry of
    v, and so the snapshot of v, is what it was. *)
Theorem updates_of_others_keep_history :
  ∀ lower (evs : list event) (w : World) (v : Z),
    Forall (fun ev => event_uid ev ≠ v) evs →
    user_context (run_events lower w evs) !! v = user_context w !! v
    ∧ snapshot (user_context (run_events lower w evs)) v
      = snapshot (user_context w) v.
Proof.
  intros lower evs. induction evs as [|ev evs IH]; intros w v Hall; [done|].
  inversion Hall as [|? ? Hev Hrest]; subst.
  cbn [run_events fold_left].
  destruct (IH (handle_event lower w ev) v Hrest) as [Hl Hs].
  unfold run_events in Hl, Hs. unfold snapshot in *.
  rewrite Hl. by rewrite handle_event_other.
Qed.

Lemma updates_of_others_keep_history_witness :
  snapshot
    (user_context
       (run_events lower_ascii initial_world
          [EvText env_all_ok {| t_uid := 1; t_text := py "hi" |};
           EvPhoto env_all_ok {| p_uid := 2; p_file_id := py "F" |}])) 3
  = snapshot (user_context initial_world) 3.
Proof.
  apply (proj2 (updates_of_others_keep_history lower_ascii
           [EvText env_all_ok {| t_uid := 1; t_text := py "hi" |};
            EvPhoto env_all_ok {| p_uid := 2; p_file_id := py "F" |}]
           initial_world 3%Z
           ltac:(repeat constructor; discriminate))).
Defined.

(** ** Further properties of text handling *)

Lemma payload_after_start (w : World) (uid : Z) (m : TextMsg) :
  request_payload (cmd_start w uid) m = request_payload w m.
Proof.
  unfold request_payload. f_equal. apply hist_other_key.
  unfold context_at_dispatch, push_user. rewrite !push_turn_lookup.
  cbn [user_context cmd_start reply_to set_context].
  destruct (decide (uid = t_uid m)) as [->|Hne].
  - rewrite ensure_context_lookup. by destruct (user_context w !! t_uid m).
  - by rewrite ensure_context_other.
Qed.

Lemma report_path_frame (e : Env) (w w' : World) uid q a :
  (generate_pdf_report e w uid q a).1 = (generate_pdf_report e w' uid q a).1.
Proof.
  unfold generate_pdf_report.
  destruct (makedirs e _); [|done].
  destruct (render_pdf e _ _); [done|].
  by destruct (write_text e _ _) as [|[part|]].
Qed.

(** X5. A /start before a text changes nothing in what the text handler
    asks and answers: the request sent for the text is the same with or
    without the /start (from any user), and so are the replies to the text,
    of which there is at most one; the greeting is the only addition to the
    replies. *)
Theorem start_does_not_change_the_dialogue :
  ∀ lower (e : Env) (w : World) (uid : Z) (m : TextMsg),
    request_payload (cmd_start w uid) m = request_payload w m
    ∧ requests (handle_text lower e (cmd_start w uid) m)
      = requests (handle_text lower e w m)
    ∧ ∃ replies,
        outbox (handle_text lower e w m) = outbox w ++ replies
        ∧ outbox (handle_text lower e (cmd_start w uid) m)
          = outbox w ++ START_REPLY :: replies
        ∧ length replies ≤ 1.
Proof.
  intros lower e w uid m.
  pose proof (payload_after_start w uid m) as Hp.
  split; [exact Hp|]. split.
  - rewrite !handle_text_requests, Hp. reflexivity.
  - destruct (chat_completion e (request_payload w m)) as [raw|] eqn:E.
    + assert (E' : chat_completion e (request_payload (cmd_start w uid) m)
                   = Some raw) by (by rewrite Hp).
      rewrite (handle_text_success lower e w m raw E).
      rewrite (handle_text_success lower e (cmd_start w uid) m raw E').
      destruct (wants_report lower (strip (t_text m))).
      * exists (report_replies
                  (generate_pdf_report e (after_reply w m raw) (t_uid m)
                     (strip (t_text m)) (strip raw)).1).
        rewrite !(proj1 (proj2 (report_branch_frame _ _ _ _ _))).
        rewrite (report_path_frame e (after_reply (cmd_start w uid) m raw)
                   (after_reply w m raw)).
        split; [done|]. split.
        -- cbn [outbox after_reply send_request cmd_start reply_to
                  set_context].
           by rewrite <- app_assoc.
        -- unfold report_replies. destruct (_.1); cbn; lia.
      * exists [strip raw]. split; [done|]. split; [|cbn; lia].
        cbn. by rewrite <- !app_assoc.
    + assert (E' : chat_completion e (request_payload (cmd_start w uid) m)
                   = None) by (by rewrite Hp).
      rewrite (handle_text_failure lower e w m E).
      rewrite (handle_text_failure lower e (cmd_start w uid) m E').
      exists [OPENAI_ERROR_REPLY]. split; [done|]. split; [|cbn; lia].
      cbn. by rewrite <- !app_assoc.
Qed.

(** X6. When the inference call returns and the text does not ask for a
    report, the reply is the assistant text without surrounding white
    space, no file is written, and the sender's history ends with the user
    turn followed by the assistant turn holding that same reply. *)
Theorem plain_text_gets_the_assistant_reply :
  ∀ lower (e : Env) (w : World) (m : TextMsg) raw,
    bounded CONTEXT_MAXLEN (user_context w) →
    chat_completion e (request_payload w m) = Some raw →
    wants_report lower (strip (t_text m)) = false →
    outbox (handle_text lower e w m) = outbox w ++ [strip raw]
    ∧ files (handle_text lower e w m) = files w
    ∧ user_context (handle_text lower e w m)
      = push_assistant CONTEXT_MAXLEN
          (push_user CONTEXT_MAXLEN (user_context w) (t_uid m)
             (strip (t_text m)))
          (t_uid m) (strip raw)
    ∧ ∃ pre, snapshot (user_context (handle_text lower e w m)) (t_uid m)
             = Some (pre ++ [mkTurn user (strip (t_text m));
                             mkTurn assistant (strip raw)]).
Proof.
  intros lower e w m raw Hb Hok Hno.
  rewrite (handle_text_success lower e w m raw Hok), Hno.
  cbn [outbox files user_context reply_to].
  split; [done|]. split; [done|]. split; [done|].
  destruct (after_reply_hist w m raw Hb) as [pre Hpre].
  exists pre. rewrite <- Hpre. apply snapshot_hist.
  cbn. unfold push_assistant. rewrite push_turn_lookup. eauto.
Qed.

Lemma plain_text_gets_the_assistant_reply_witness :
  outbox (handle_text lower_ascii env_all_ok initial_world
            {| t_uid := 1; t_text := py " hello " |})
  = [] ++ [strip (py "ok")].
Proof.
  apply (proj1 (plain_text_gets_the_assistant_reply lower_ascii env_all_ok
           initial_world {| t_uid := 1; t_text := py " hello " |} (py "ok")
           (bounded_empty CONTEXT_MAXLEN) eq_refl eq_refl)).
Defined.

(** X7. A request never carries more than 25 messages nor fewer than 2:
    in a world whose histories are bounded and hold no system turn (every
    world the handlers reach) the payload has exactly one system message,
    at its head, followed by between 1 and 24 user and assistant turns. *)
Theorem request_has_one_system_message :
  ∀ lower (e : Env) (w : World) (m : TextMsg),
    bounded CONTEXT_MAXLEN (user_context w) →
    dialogue_only (user_context w) →
    ∃ h,
      requests (handle_text lower e w m)
      = requests w ++ [mkTurn system SYSTEM_PROMPT :: h]
      ∧ 1 ≤ length h ≤ 24
      ∧ Forall (fun t => role t = user ∨ role t = assistant) h.
Proof.
  intros lower e w m Hb Hd.
  exists (hist (context_at_dispatch w m) (t_uid m)).
  split; [apply handle_text_requests|].
  assert (Hb1 : bounded CONTEXT_MAXLEN (context_at_dispatch w m)).
  { unfold context_at_dispatch, push_user. by apply bounded_push. }
  assert (Hd1 : dialogue_only (context_at_dispatch w m)).
  { unfold context_at_dispatch, push_user. by apply dialogue_only_push. }
  split; [split|].
  - destruct (dispatch_hist_ends_with_text w m Hb) as [pre ->].
    rewrite length_app. cbn. lia.
  - apply (hist_bounded CONTEXT_MAXLEN _ _ Hb1).
  - unfold hist, snapshot.
    destruct (context_at_dispatch w m !! t_uid m) as [d|] eqn:E;
      [|constructor].
    cbn. eapply Forall_impl; [apply (Hd1 _ _ E)|].
    intros t Ht. cbn in Ht. destruct (role t); [done | by left | by right].
Qed.

Lemma request_has_one_system_message_witness :
  ∃ h,
    requests (handle_text lower_ascii env_all_ok initial_world
                {| t_uid := 1; t_text := py "hi" |})
    = [] ++ [mkTurn system SYSTEM_PROMPT :: h]
    ∧ 1 ≤ length h ≤ 24
    ∧ Forall (fun t => role t = user ∨ role t = assistant) h.
Proof.
  apply (request_has_one_system_message lower_ascii env_all_ok initial_world
           {| t_uid := 1; t_text := py "hi" |}
           (bounded_empty CONTEXT_MAXLEN) dialogue_only_empty).
Defined.

Lemma lstrip_head (s : pystr) c r : lstrip s = c :: r → is_space c = false.
Proof.
  induction s as [|a s IH]; [done|]. cbn [lstrip].
  destruct (is_space a) eqn:Ha; [exact IH|]. intros [= <- _]. exact Ha.
Qed.

Lemma lstrip_fixed (s : pystr) :
  (∀ c r, s = c :: r → is_space c = false) → lstrip s = s.
Proof.
  destruct s as [|c r]; [done|]. intros H. cbn [lstrip].
  by rewrite (H c r eq_refl).
Qed.

Lemma lstrip_idem (s : pystr) : lstrip (lstrip s) = lstrip s.
Proof. apply lstrip_fixed. intros c r. apply lstrip_head. Qed.

Lemma rstrip_prefix (s : pystr) :
  ∃ ws, s = rstrip s ++ ws ∧ Forall (fun c => is_space c = true) ws.
Proof.
  destruct (lstrip_decompose (rev s)) as (ws & Heq & Hws).
  exists (rev ws). split; [|by apply Forall_rev].
  unfold rstrip. rewrite <- rev_app_distr, <- Heq. by rewrite rev_involutive.
Qed.

Lemma strip_head (s : pystr) c r : strip s = c :: r → is_space c = false.
Proof.
  intros Hs. destruct (rstrip_prefix (lstrip s)) as (ws & Heq & _).
  fold (strip s) in Heq. rewrite Hs in Heq. cbn in Heq.
  by apply (lstrip_head s c (r ++ ws)).
Qed.

Lemma strip_last (s : pystr) pre c :
  strip s = pre ++ [c] → is_space c = false.
Proof.
  intros Hs. apply (f_equal (@rev N)) in Hs.
  unfold strip, rstrip in Hs. rewrite rev_involutive, rev_app_distr in Hs.
  cbn in Hs. by apply lstrip_head in Hs.
Qed.

Lemma strip_idem (s : pystr) : strip (strip s) = strip s.
Proof.
  unfold strip at 1.
  rewrite (lstrip_fixed (strip s)) by (intros c r; apply strip_head).
  unfold strip, rstrip. by rewrite rev_involutive, lstrip_idem.
Qed.

Lemma strip_blank (s : pystr) :
  Forall (fun c => is_space c = true) s → strip s = [].
Proof.
  intros Hs. assert (Hl : lstrip s = []).
  { induction Hs as [|c s Hc Hs IH]; [done|]. cbn [lstrip]. by rewrite Hc. }
  unfold strip. by rewrite Hl.
Qed.

Lemma handle_text_keeps_user_turn lower (e : Env) (w : World) (m : TextMsg) :
  bounded CONTEXT_MAXLEN (user_context w) →
  In (mkTurn user (strip (t_text m)))
     (hist (user_context (handle_text lower e w m)) (t_uid m)).
Proof.
  intros Hb.
  destruct (chat_completion e (request_payload w m)) as [raw|] eqn:E.
  - assert (Hin : In (mkTurn user (strip (t_text m)))
                    (hist (user_context (after_reply w m raw)) (t_uid m))).
    { destruct (after_reply_hist w m raw Hb) as [pre ->].
      apply in_or_app. right. by left. }
    rewrite (handle_text_success lower e w m raw E).
    destruct (wants_report lower (strip (t_text m))); [|exact Hin].
    by rewrite (proj1 (report_branch_frame _ _ _ _ _)).
  - rewrite (handle_text_failure lower e w m E).
    cbn [user_context reply_to log_exception send_request set_context].
    destruct (dispatch_hist_ends_with_text w m Hb) as [pre ->].
    apply in_or_app. right. by left.
Qed.

(** X8. The text that [handle_text] records and sends is the inbound text
    without the white space around it: the inbound text is white space, the
    recorded text, white space; the recorded text neither starts nor ends
    with a white-space character, and is empty when the inbound text is
    white space only. It is the content of the user turn that ends the
    request the handler sends, and that turn is in the sender's history
    when the handler is done, whatever the external calls did. *)
Theorem recorded_text_is_stripped :
  ∀ lower (e : Env) (w : World) (m : TextMsg),
    bounded CONTEXT_MAXLEN (user_context w) →
    ∃ t ws1 ws2 payload,
      t = strip (t_text m)
      ∧ t_text m = ws1 ++ t ++ ws2
      ∧ Forall (fun c => is_space c = true) ws1
      ∧ Forall (fun c => is_space c = true) ws2
      ∧ (∀ c r, t = c :: r → is_space c = false)
      ∧ (∀ pre c, t = pre ++ [c] → is_space c = false)
      ∧ (Forall (fun c => is_space c = true) (t_text m) → t = [])
      ∧ requests (handle_text lower e w m) = requests w ++ [payload]
      ∧ last payload = Some (mkTurn user t)
      ∧ In (mkTurn user t)
           (hist (user_context (handle_text lower e w m)) (t_uid m)).
Proof.
  intros lower e w m Hb.
  destruct (strip_decompose (t_text m)) as (ws1 & ws2 & Hdec & Hws1 & Hws2).
  exists (strip (t_text m)), ws1, ws2, (request_payload w m).
  split; [done|]. split; [exact Hdec|]. split; [exact Hws1|].
  split; [exact Hws2|].
  split; [intros c r; apply strip_head|].
  split; [intros pre c; apply strip_last|].
  split; [apply strip_blank|].
  split; [apply handle_text_requests|]. split.
  - unfold request_payload.
    destruct (dispatch_hist_ends_with_text w m Hb) as [pre ->].
    rewrite app_comm_cons. apply last_snoc.
  - by apply handle_text_keeps_user_turn.
Qed.

Lemma recorded_text_is_stripped_witness :
  ∃ t ws1 ws2 payload,
    t = strip (py "  a b ")
    ∧ py "  a b " = ws1 ++ t ++ ws2
    ∧ Forall (fun c => is_space c = true) ws1
    ∧ Forall (fun c => is_space c = true) ws2
    ∧ (∀ c r, t = c :: r → is_space c = false)
    ∧ (∀ pre c, t = pre ++ [c] → is_space c = false)
    ∧ (Forall (fun c => is_space c = true) (py "  a b ") → t = [])
    ∧ requests (handle_text lower_ascii env_all_ok initial_world
                  {| t_uid := 1; t_text := py "  a b " |})
      = [] ++ [payload]
    ∧ last payload = Some (mkTurn user t)
    ∧ In (mkTurn user t)
         (hist (user_context
                  (handle_text lower_ascii env_all_ok initial_world
                     {| t_uid := 1; t_text := py "  a b " |})) 1).
Proof.
  apply (recorded_text_is_stripped lower_ascii env_all_ok initial_world
           {| t_uid := 1; t_text := py "  a b " |}
           (bounded_empty CONTEXT_MAXLEN)).
Defined.

(** ** Further properties of the report *)

Lemma draw_lines_canvas_text (lines : list pystr) :
  ∀ y, canvas_text (draw_lines y lines) = map (slice_to 120) lines.
Proof.
  induction lines as [|line rest IH]; intros y; [done|].
  cbn [draw_lines map].
  change (canvas_text (DrawString 60 y (slice_to 120 line) :: ?t))
    with (slice_to 120 line :: canvas_text t).
  f_equal. destruct (y - 14 <? 100)%Z.
  - change (canvas_text (ShowPage :: ?t)) with (canvas_text t). apply IH.
  - apply IH.
Qed.

Lemma draw_lines_heights (lines : list pystr) :
  ∀ y, (100 ≤ y ≤ 800)%Z →
       Forall (fun h => (100 ≤ h ≤ 800)%Z) (canvas_heights (draw_lines y lines)).
Proof.
  induction lines as [|line rest IH]; intros y Hy; [constructor|].
  cbn [draw_lines].
  change (canvas_heights (DrawString 60 y (slice_to 120 line) :: ?t))
    with (y :: canvas_heights t).
  constructor; [done|].
  destruct (Z.ltb_spec (y - 14) 100).
  - change (canvas_heights (ShowPage :: ?t)) with (canvas_heights t).
    apply IH. lia.
  - apply IH. lia.
Qed.

(** X9. The PDF shows, in this order, the title, the user line, the
    request heading, the first 1000 characters of the request, the analysis
    heading and then every line of the assistant text cut at 120
    characters, none left out; every string is drawn at a height between
    100 and 800, so nothing is drawn below the bottom margin; the last two
    calls end the page and save the file. *)
Theorem report_shows_every_line_on_the_page :
  ∀ uid q a,
    canvas_text (report_canvas uid q a)
    = [PDF_TITLE; USER_LINE uid; PDF_REQUEST_HEADING; slice_to 1000 q;
       ANALYSIS_HEADING]
      ++ map (slice_to 120) (splitlines a)
    ∧ Forall (fun h => (100 ≤ h ≤ 800)%Z)
        (canvas_heights (report_canvas uid q a))
    ∧ ∃ ops, report_canvas uid q a = ops ++ [ShowPage; Save]
             ∧ ¬ In Save ops.
Proof.
  intros uid q a. split; [|split].
  - unfold report_canvas, canvas_text. rewrite !omap_app. cbn [omap app].
    fold (canvas_text (draw_lines 680 (splitlines a))).
    rewrite draw_lines_canvas_text. by rewrite app_nil_r.
  - unfold report_canvas, canvas_heights. rewrite !omap_app. cbn [omap app].
    fold (canvas_heights (draw_lines 680 (splitlines a))).
    repeat (constructor; [lia|]).
    rewrite app_nil_r. apply draw_lines_heights. lia.
  - eexists. unfold report_canvas. rewrite app_assoc. split; [reflexivity|].
    intros Hin. apply in_app_or in Hin as [Hin|Hin].
    + cbn in Hin. repeat (destruct Hin as [Hin|Hin]; [discriminate|]). done.
    + revert Hin. generalize 680%Z. generalize (splitlines a).
      induction l as [|line rest IH]; intros y; [done|].
      cbn [draw_lines]. intros [Hin|Hin]; [discriminate|].
      destruct (y - 14 <? 100)%Z.
      * destruct Hin as [Hin|Hin]; [discriminate|]. by apply (IH 800%Z).
      * by apply (IH (y - 14)%Z).
Qed.

Lemma splitlines_from_no_break (n : nat) :
  ∀ (s cur line : pystr),
    length s ≤ n →
    Forall (fun c => is_linebreak c = false) cur →
    In line (splitlines_from cur s) →
    Forall (fun c => is_linebreak c = false) line.
Proof.
  induction n as [|n IH]; intros s cur line Hlen Hcur Hin.
  - destruct s; [|cbn in Hlen; lia].
    cbn in Hin. destruct cur; [done|].
    destruct Hin as [<-|[]]. by apply Forall_rev.
  - destruct s as [|c s'].
    + cbn in Hin. destruct cur; [done|].
      destruct Hin as [<-|[]]. by apply Forall_rev.
    + cbn in Hlen. cbn [splitlines_from] in Hin.
      assert (Hhead : Forall (fun c => is_linebreak c = false) (rev cur))
        by (by apply Forall_rev).
      destruct (is_linebreak c) eqn:Hc.
      * destruct (c =? 13)%N.
        -- destruct s' as [|c' s''].
           ++ destruct Hin as [<-|Hin]; [exact Hhead|].
              apply (IH [] [] line); [cbn; lia | constructor | done].
           ++ cbn in Hlen. destruct (c' =? 10)%N.
              ** destruct Hin as [<-|Hin]; [exact Hhead|].
                 apply (IH s'' [] line); [lia | constructor | done].
              ** destruct Hin as [<-|Hin]; [exact Hhead|].
                 apply (IH (c' :: s'') [] line);
                   [cbn; lia | constructor | done].
        -- destruct Hin as [<-|Hin]; [exact Hhead|].
           apply (IH s' [] line); [lia | constructor | done].
      * apply (IH s' (c :: cur) line); [lia | by constructor | done].
Qed.

(** X10. No string of the analysis part of the PDF is longer than 120
    characters or holds a line-break character, and each is the beginning of
    a line of the assistant text; the request is shown by at most 1000
    characters. *)
Theorem report_lines_are_short_and_unbroken :
  ∀ y a s,
    In s (canvas_text (draw_lines y (splitlines a))) →
    length s ≤ 120
    ∧ Forall (fun c => is_linebreak c = false) s
    ∧ ∃ line, In line (splitlines a) ∧ s = slice_to 120 line
              ∧ substring line a.
Proof.
  intros y a s Hin.
  destruct (draw_lines_text _ _ _ Hin) as (line & Hline & ->).
  split; [unfold slice_to; rewrite length_take; lia|]. split.
  - apply Forall_take.
    apply (splitlines_from_no_break (length a) a [] line);
      [done | constructor | exact Hline].
  - exists line. split; [done|]. split; [done|].
    by apply splitlines_substring.
Qed.

Lemma report_lines_are_short_and_unbroken_witness :
  length (py "ab") ≤ 120
  ∧ Forall (fun c => is_linebreak c = false) (py "ab")
  ∧ ∃ line, In line (splitlines [97; 98; 10; 99]%N)
            ∧ py "ab" = slice_to 120 line
            ∧ substring line [97; 98; 10; 99]%N.
Proof.
  apply (report_lines_are_short_and_unbroken 680%Z [97; 98; 10; 99]%N
           (py "ab")).
  left. reflexivity.
Defined.

Lemma page_breaks_app (a b : list canvas_op) :
  page_breaks (a ++ b) = page_breaks a + page_breaks b.
Proof. unfold page_breaks. by rewrite omap_app, length_app. Qed.

Lemma draw_lines_no_break (lines : list pystr) :
  ∀ y, (100 ≤ y - 14 * Z.of_nat (length lines))%Z →
       page_breaks (draw_lines y lines) = 0.
Proof.
  induction lines as [|line rest IH]; intros y Hy; [done|].
  cbn [draw_lines length] in *.
  destruct (Z.ltb_spec (y - 14) 100); [lia|].
  change (page_breaks (DrawString ?a ?b ?c :: ?t)) with (page_breaks t).
  apply IH. lia.
Qed.

Lemma draw_lines_cons (y : Z) (line : pystr) (rest : list pystr) :
  draw_lines y (line :: rest)
  = DrawString 60 y (slice_to 120 line)
    :: (if (y - 14 <? 100)%Z then ShowPage :: draw_lines 800 rest
        else draw_lines (y - 14) rest).
Proof. reflexivity. Qed.

Lemma draw_lines_full_page (l1 : list pystr) :
  ∀ y rest,
    l1 ≠ [] →
    (100 ≤ y - 14 * (Z.of_nat (length l1) - 1))%Z →
    (y - 14 * Z.of_nat (length l1) < 100)%Z →
    draw_lines y (l1 ++ rest) = draw_lines y l1 ++ draw_lines 800 rest
    ∧ page_breaks (draw_lines y l1) = 1
    ∧ last (draw_lines y l1) = Some ShowPage.
Proof.
  induction l1 as [|x l1 IH]; intros y rest Hne Hfit Hover; [done|].
  rewrite <- app_comm_cons, !(draw_lines_cons y x).
  destruct l1 as [|x' l1'].
  - cbn [length] in Hfit, Hover.
    destruct (Z.ltb_spec (y - 14) 100); [|lia]. done.
  - cbn [length] in Hfit, Hover.
    destruct (Z.ltb_spec (y - 14) 100); [lia|].
    destruct (IH (y - 14)%Z rest) as (Heq & Hpb & Hlast);
      [done | cbn [length]; lia | cbn [length]; lia |].
    rewrite Heq. split; [done|]. split.
    + change (page_breaks (DrawString ?a ?b ?c :: ?t)) with (page_breaks t).
      exact Hpb.
    + rewrite (draw_lines_cons (y - 14) x') in *. exact Hlast.
Qed.

Lemma page_breaks_from_top (k : nat) :
  ∀ lines, 51 * k ≤ length lines < 51 * (k + 1) →
           page_breaks (draw_lines 800 lines) = k.
Proof.
  induction k as [|k IH]; intros lines Hlen.
  - apply draw_lines_no_break. lia.
  - rewrite <- (take_drop 51 lines).
    destruct (draw_lines_full_page (take 51 lines) 800 (drop 51 lines))
      as (Heq & Hpb & _).
    + intros Hnil. apply (f_equal length) in Hnil.
      rewrite length_take in Hnil. cbn [length] in Hnil. lia.
    + rewrite length_take. lia.
    + rewrite length_take. lia.
    + rewrite Heq, page_breaks_app, Hpb, IH; [lia|].
      rewrite length_drop. lia.
Qed.

(** X11. The pages of the report: the first page takes 42 lines of the
    assistant text and every further page 51. With n lines the loop breaks
    the page n / 51 times when it starts at the top of a page, and, starting
    below the headings as the report does, not at all for n < 42 and
    1 + (n - 42) / 51 times otherwise; the report has one page more than
    that, and after exactly 42 lines the loop has just broken the page, so
    that a report of 42 lines ends with an empty page. *)
Theorem report_page_count :
  (∀ lines, page_breaks (draw_lines 800 lines) = length lines / 51)
  ∧ (∀ lines,
       page_breaks (draw_lines 680 lines)
       = if length lines <? 42 then 0 else 1 + (length lines - 42) / 51)
  ∧ (∀ uid q a,
       page_breaks (report_canvas uid q a)
       = 1 + (if length (splitlines a) <? 42 then 0
              else 1 + (length (splitlines a) - 42) / 51))
  ∧ (∀ l1 rest,
       length l1 = 42 →
       draw_lines 680 (l1 ++ rest) = draw_lines 680 l1 ++ draw_lines 800 rest
       ∧ last (draw_lines 680 l1) = Some ShowPage)
  ∧ (∀ uid q a,
       length (splitlines a) = 42 →
       ∃ ops, report_canvas uid q a = ops ++ [ShowPage; ShowPage; Save]).
Proof.
  assert (Htop : ∀ lines,
             page_breaks (draw_lines 800 lines) = length lines / 51).
  { intros lines. apply page_breaks_from_top.
    pose proof (Nat.div_mod_eq (length lines) 51) as Hdm.
    pose proof (Nat.mod_upper_bound (length lines) 51) as Hm. lia. }
  assert (Hfirst : ∀ lines,
             page_breaks (draw_lines 680 lines)
             = if length lines <? 42 then 0
               else 1 + (length lines - 42) / 51).
  { intros lines. destruct (Nat.ltb_spec (length lines) 42) as [Hlt|Hge].
    - apply draw_lines_no_break. lia.
    - rewrite <- (take_drop 42 lines) at 1.
      destruct (draw_lines_full_page (take 42 lines) 680 (drop 42 lines))
        as (Heq & Hpb & _).
      + intros Hnil. apply (f_equal length) in Hnil.
        rewrite length_take in Hnil. cbn [length] in Hnil. lia.
      + rewrite length_take. lia.
      + rewrite length_take. lia.
      + rewrite Heq, page_breaks_app, Hpb, Htop, length_drop. done. }
  assert (Hfull : ∀ l1 rest,
             length l1 = 42 →
             draw_lines 680 (l1 ++ rest)
             = draw_lines 680 l1 ++ draw_lines 800 rest
             ∧ last (draw_lines 680 l1) = Some ShowPage).
  { intros l1 rest Hlen.
    destruct (draw_lines_full_page l1 680 rest) as (Heq & _ & Hlast).
    - intros ->. discriminate.
    - lia.
    - lia.
    - done. }
  split; [exact Htop|]. split; [exact Hfirst|]. split; [|split].
  - intros uid q a. unfold report_canvas.
    rewrite !page_breaks_app, Hfirst. cbn. lia.
  - exact Hfull.
  - intros uid q a Hlen.
    destruct (Hfull (splitlines a) [] Hlen) as [_ Hlast].
    apply last_Some in Hlast as [ops' Hops].
    assert (Hshape : ∀ head : list canvas_op,
               ∃ ops, head ++ (ops' ++ [ShowPage]) ++ [ShowPage; Save]
                      = ops ++ [ShowPage; ShowPage; Save]).
    { intros head. exists (head ++ ops'). by rewrite <- !app_assoc. }
    unfold report_canvas. rewrite Hops. apply Hshape.
Qed.

Lemma report_page_count_witness :
  draw_lines 680 (replicate 42 (py "x") ++ [py "y"])
  = draw_lines 680 (replicate 42 (py "x")) ++ draw_lines 800 [py "y"]
  ∧ last (draw_lines 680 (replicate 42 (py "x"))) = Some ShowPage.
Proof.
  apply (proj1 (proj2 (proj2 (proj2 report_page_count)))
           (replicate 42 (py "x")) [py "y"] eq_refl).
Defined.

(** ** Decimal strings and paths *)

Lemma py_inj (s t : string) : py s = py t → s = t.
Proof.
  revert t. induction s as [|a s IH]; intros [|b t]; cbn; try done.
  intros [= Hab Hst]. f_equal; [|by apply IH].
  by rewrite <- (ascii_N_embedding a), Hab, ascii_N_embedding.
Qed.

Lemma to_int_proper (z : Z) :
  Z.to_int z ≠ Decimal.Pos Decimal.Nil ∧ Z.to_int z ≠ Decimal.Neg Decimal.Nil.
Proof.
  destruct z; cbn; split; try discriminate; intros [= H];
    by apply DecimalPos.Unsigned.to_uint_nonnil in H.
Qed.

Lemma str_of_int_inj (a b : Z) : str_of_int a = str_of_int b → a = b.
Proof.
  intros H. apply py_inj in H. apply DecimalZ.to_int_inj.
  destruct (to_int_proper a) as [Ha1 Ha2].
  destruct (to_int_proper b) as [Hb1 Hb2].
  pose proof (NilZero.isi _ Ha1 Ha2) as Ia.
  pose proof (NilZero.isi _ Hb1 Hb2) as Ib.
  rewrite H, Ib in Ia. by injection Ia.
Qed.

Lemma uint_chars (d : Decimal.uint) :
  Forall (fun c => is_int_char c = true) (py (NilEmpty.string_of_uint d)).
Proof. induction d; cbn; constructor; done. Qed.

Lemma str_of_int_chars (z : Z) :
  Forall (fun c => is_int_char c = true) (str_of_int z).
Proof.
  unfold str_of_int.
  assert (Hu : ∀ d, Forall (fun c => is_int_char c = true)
                      (py (NilZero.string_of_uint d))).
  { intros d. destruct d; try apply uint_chars. cbn. by constructor. }
  destruct (Z.to_int z) as [d|d]; cbn [NilZero.string_of_int].
  - apply Hu.
  - change (py (String "-" ?s)) with (45%N :: py s). constructor; [done|].
    apply Hu.
Qed.

Lemma str_of_int_nonempty (z : Z) : str_of_int z ≠ [].
Proof.
  unfold str_of_int.
  destruct (Z.to_int z) as [d|d]; cbn [NilZero.string_of_int];
    [|discriminate].
  destruct d; discriminate.
Qed.

Lemma int_char_not (c x : N) :
  is_int_char c = true → is_int_char x = false → c ≠ x.
Proof. intros Hc Hx ->. congruence. Qed.

Lemma str_of_int_free (z : Z) (x : N) :
  is_int_char x = false → ¬ In x (str_of_int z).
Proof.
  intros Hx Hin. pose proof (str_of_int_chars z) as Hall.
  rewrite Forall_forall in Hall.
  apply list_elem_of_In in Hin. apply Hall in Hin. congruence.
Qed.

Lemma str_of_int_relative (z : Z) (rest : pystr) :
  startswith (str_of_int z ++ rest) (py "/") = false.
Proof.
  pose proof (str_of_int_chars z) as Hall.
  pose proof (str_of_int_nonempty z) as Hne.
  destruct (str_of_int z) as [|c r]; [done|].
  inversion Hall as [|? ? Hc _]; subst.
  apply not_true_is_false. intros H.
  apply startswith_spec in H as [r' Hr]. cbn in Hr. injection Hr as -> _.
  vm_compute in Hc. discriminate.
Qed.

Lemma split_at_separator (sep : N) (a a' b b' : pystr) :
  ¬ In sep a → ¬ In sep a' →
  a ++ sep :: b = a' ++ sep :: b' → a = a' ∧ b = b'.
Proof.
  revert a'. induction a as [|x a IH]; intros [|x' a'] Ha Ha' Heq.
  - by injection Heq.
  - cbn in Heq. injection Heq as -> _. destruct Ha'. by left.
  - cbn in Heq. injection Heq as -> _. destruct Ha. by left.
  - cbn in Heq. injection Heq as -> Heq.
    destruct (IH a') as [-> ->]; [|  | done | done].
    + intros H. apply Ha. by right.
    + intros H. apply Ha'. by right.
Qed.

Lemma path_join_relative (a b : pystr) :
  startswith b (py "/") = false →
  ∃ sep, (sep = [] ∨ sep = py "/")
         ∧ (∀ b', startswith b' (py "/") = false →
                  path_join a b' = a ++ sep ++ b').
Proof.
  intros Hb. unfold path_join.
  destruct (match a with [] => true | _ => endswith a (py "/") end).
  - exists []. split; [by left|]. intros b' ->. done.
  - exists (py "/"). split; [by right|]. intros b' ->. done.
Qed.

Lemma startswith_app (a b : pystr) : startswith (a ++ b) a = true.
Proof. apply startswith_spec. eauto. Qed.

Lemma endswith_app3 (a b c : pystr) : endswith (a ++ b ++ c) c = true.
Proof. rewrite app_assoc. apply endswith_app. Qed.

Lemma report_paths_coincide (e e' : Env) (uid uid' : Z) :
  MEDIA_DIR e' = MEDIA_DIR e →
  report_pdf_path e uid = report_pdf_path e' uid'
  ↔ uid = uid' ∧ now e = now e'.
Proof.
  intros Hdir.
  assert (Hrel : ∀ u n, startswith (py "report_" ++ str_of_int u ++ py "_"
                                     ++ str_of_int n ++ py ".pdf") (py "/")
                        = false) by done.
  destruct (path_join_relative (MEDIA_DIR e) _ (Hrel uid (now e)))
    as (sep & Hsep & Hjoin).
  unfold report_pdf_path. rewrite Hdir, !Hjoin by apply Hrel. split.
  - intros Heq. apply app_inv_head in Heq. apply app_inv_head in Heq.
    apply app_inv_head in Heq.
    change (py "_" ++ ?x) with (95%N :: x) in Heq.
    apply split_at_separator in Heq as [Hu Hn];
      [| by apply str_of_int_free | by apply str_of_int_free].
    apply app_inv_tail in Hn.
    split; by apply str_of_int_inj.
  - by intros [-> ->].
Qed.

Lemma report_pdf_path_exact (e : Env) (uid : Z) :
  MEDIA_DIR e ≠ [] →
  report_pdf_path e uid
  = MEDIA_DIR e
    ++ (if endswith (MEDIA_DIR e) (py "/") then [] else py "/")
    ++ py "report_" ++ str_of_int uid ++ py "_" ++ str_of_int (now e)
    ++ py ".pdf".
Proof.
  intros Hne. unfold report_pdf_path, path_join.
  change (startswith (py "report_" ++ ?x) (py "/")) with false. cbn match.
  destruct (MEDIA_DIR e) as [|c dir]; [done|].
  by destruct (endswith (c :: dir) (py "/")).
Qed.

(** X12. A report is only ever returned for a non-empty MEDIA_DIR (the
    directory is made first, and the empty path cannot be made). The path
    returned is then MEDIA_DIR, a slash exactly when MEDIA_DIR does not
    already end with one, and report_<uid>_<seconds>.pdf, with ".txt"
    appended when the text fallback was written; it starts with MEDIA_DIR.
    For one MEDIA_DIR the PDF paths of two reports are the same exactly
    when they are for the same user in the same second, whatever their
    texts: only then does one report overwrite another. *)
Theorem report_path_identifies_user_and_second :
  (∀ (e : Env) (w : World) (uid : Z) q a path,
     (generate_pdf_report e w uid q a).1 = Some path →
     MEDIA_DIR e ≠ []
     ∧ report_pdf_path e uid
       = MEDIA_DIR e
         ++ (if endswith (MEDIA_DIR e) (py "/") then [] else py "/")
         ++ py "report_" ++ str_of_int uid ++ py "_" ++ str_of_int (now e)
         ++ py ".pdf"
     ∧ (path = report_pdf_path e uid
        ∧ render_pdf e (report_pdf_path e uid) (report_canvas uid q a) = true
        ∨ path = report_pdf_path e uid ++ py ".txt"
          ∧ render_pdf e (report_pdf_path e uid) (report_canvas uid q a)
            = false)
     ∧ startswith path (MEDIA_DIR e) = true)
  ∧ (∀ (e : Env) (w : World) (uid : Z) q a,
       MEDIA_DIR e = [] →
       generate_pdf_report e w uid q a = (None, w))
  ∧ (∀ (e e' : Env) (uid uid' : Z),
       MEDIA_DIR e' = MEDIA_DIR e →
       (report_pdf_path e uid = report_pdf_path e' uid'
        ↔ uid = uid' ∧ now e = now e')).
Proof.
  split; [|split].
  - intros e w uid q a path Hret.
    assert (Hdir : makedirs e (MEDIA_DIR e) = true).
    { unfold generate_pdf_report in Hret.
      by destruct (makedirs e (MEDIA_DIR e)). }
    assert (Hne : MEDIA_DIR e ≠ []).
    { intros Hnil. unfold makedirs in Hdir. by rewrite Hnil in Hdir. }
    pose proof (report_pdf_path_exact e uid Hne) as Hexact.
    split; [exact Hne|]. split; [exact Hexact|].
    unfold generate_pdf_report in *. rewrite Hdir in *.
    destruct (render_pdf e _ _) eqn:Hr.
    + cbn in Hret. injection Hret as <-.
      split; [by left|].
      rewrite Hexact. apply startswith_app.
    + destruct (write_text e _ _) as [|[part|]]; cbn in Hret; try done.
      injection Hret as <-.
      split; [by right|].
      rewrite Hexact, <- app_assoc. apply startswith_app.
  - intros e w uid q a Hnil. unfold generate_pdf_report, makedirs.
    by rewrite Hnil.
  - intros e e' uid uid'. apply report_paths_coincide.
Qed.

Lemma report_path_identifies_user_and_second_witness :
  MEDIA_DIR env_all_ok ≠ []
  ∧ generate_pdf_report env_empty_media_dir initial_world 1 (py "q") (py "a")
    = (None, initial_world)
  ∧ (report_pdf_path env_all_ok 1 = report_pdf_path env_no_reportlab 1
     ↔ 1%Z = 1%Z ∧ now env_all_ok = now env_no_reportlab).
Proof.
  split; [|split].
  - apply (proj1 (proj1 report_path_identifies_user_and_second
             env_all_ok initial_world 1%Z (py "q") (py "a")
             (py "/tmp/telegram_media/report_1_1700000000.pdf") eq_refl)).
  - apply (proj1 (proj2 report_path_identifies_user_and_second)
             env_empty_media_dir initial_world 1%Z (py "q") (py "a")
             eq_refl).
  - apply (proj2 (proj2 report_path_identifies_user_and_second)
             env_all_ok env_no_reportlab 1%Z 1%Z eq_refl).
Defined.

(** X13. Every downloaded file is stored under a path that starts with
    MEDIA_DIR. A photo path ends with ".jpg" and determines the user and the
    file id it was built from, so two photos share a path only if they
    are the same file of the same user. A document path ends with the file
    name as the sender gave it ("None" when there is none); it does not
    determine the document, since
    file id and file name are glued with the underscore either may contain:
    two different documents of one user can get the same path. *)
Theorem download_paths_stay_under_media_dir :
  (∀ (e : Env) (m : PhotoMsg),
     startswith (photo_local_path e m) (MEDIA_DIR e) = true
     ∧ endswith (photo_local_path e m) (py ".jpg") = true)
  ∧ (∀ (e : Env) (m m' : PhotoMsg),
       photo_local_path e m = photo_local_path e m' → m = m')
  ∧ (∀ (e : Env) (m : DocMsg),
       startswith (doc_local_path e m) (MEDIA_DIR e) = true
       ∧ endswith (doc_local_path e m) (doc_name m) = true)
  ∧ (∀ e : Env,
       ∃ m m' : DocMsg,
         d_uid m = d_uid m' ∧ d_file_id m ≠ d_file_id m'
         ∧ doc_local_path e m = doc_local_path e m').
Proof.
  split; [|split; [|split]].
  - intros e m. unfold photo_local_path.
    destruct (path_join_relative (MEDIA_DIR e) _
                (str_of_int_relative (p_uid m)
                   (py "_" ++ p_file_id m ++ py ".jpg")))
      as (sep & _ & Hjoin).
    rewrite Hjoin by apply str_of_int_relative. split.
    + apply startswith_app.
    + rewrite !app_assoc. apply endswith_app.
  - intros e [u f] [u' f']. unfold photo_local_path. cbn [p_uid p_file_id].
    destruct (path_join_relative (MEDIA_DIR e) _
                (str_of_int_relative u (py "_" ++ f ++ py ".jpg")))
      as (sep & _ & Hjoin).
    rewrite !Hjoin by apply str_of_int_relative.
    intros Heq. apply app_inv_head in Heq. apply app_inv_head in Heq.
    change (py "_" ++ ?x) with (95%N :: x) in Heq.
    apply split_at_separator in Heq as [Hu Hf];
      [| by apply str_of_int_free | by apply str_of_int_free].
    apply app_inv_tail in Hf. apply str_of_int_inj in Hu. by subst.
  - intros e m. unfold doc_local_path.
    destruct (path_join_relative (MEDIA_DIR e) _
                (str_of_int_relative (d_uid m)
                   (py "_" ++ d_file_id m ++ py "_" ++ doc_name m)))
      as (sep & _ & Hjoin).
    rewrite Hjoin by apply str_of_int_relative. split.
    + apply startswith_app.
    + rewrite !app_assoc. apply endswith_app.
  - intros e.
    exists {| d_uid := 1; d_file_id := py "a_b";
              d_file_name := Some (py "c.pdf") |},
           {| d_uid := 1; d_file_id := py "a";
              d_file_name := Some (py "b_c.pdf") |}.
    split; [done|]. split; [discriminate|]. reflexivity.
Qed.

Lemma download_paths_stay_under_media_dir_witness :
  {| p_uid := 1; p_file_id := py "F" |}
  = {| p_uid := 1; p_file_id := py "F" |}.
Proof.
  apply (proj1 (proj2 download_paths_stay_under_media_dir) env_all_ok
           {| p_uid := 1; p_file_id := py "F" |}
           {| p_uid := 1; p_file_id := py "F" |} eq_refl).
Defined.

Lemma splitlines_from_unbroken (s : pystr) :
  ∀ cur, Forall (fun c => is_linebreak c = false) s →
         splitlines_from cur s
         = match rev cur ++ s with [] => [] | t => [t] end.
Proof.
  induction s as [|c s IH]; intros cur Hs.
  - cbn [splitlines_from]. rewrite app_nil_r.
    destruct cur as [|x cur]; [done|].
    destruct (rev (x :: cur)) eqn:E; [|done].
    apply (f_equal length) in E. rewrite length_rev in E. done.
  - inversion Hs as [|? ? Hc Hs']; subst.
    cbn [splitlines_from]. rewrite Hc, IH by done.
    cbn [rev]. by rewrite <- app_assoc.
Qed.

(** X14. The text file written when the renderer fails separates its parts
    by the two characters backslash and n, not by line breaks: when neither
    the request nor the assistant text holds a line-break character, the
    file holds none, and read back it is a single line. *)
Theorem fallback_file_is_one_line :
  ∀ uid q a,
    Forall (fun c => is_linebreak c = false) q →
    Forall (fun c => is_linebreak c = false) a →
    Forall (fun c => is_linebreak c = false) (report_fallback_text uid q a)
    ∧ splitlines (report_fallback_text uid q a)
      = [report_fallback_text uid q a].
Proof.
  intros uid q a Hq Ha.
  assert (Hint : Forall (fun c => is_linebreak c = false) (str_of_int uid)).
  { eapply Forall_impl; [apply str_of_int_chars|]. cbn. intros c Hc.
    unfold is_int_char in Hc. unfold is_linebreak.
    repeat (apply orb_true_iff in Hc as [Hc|Hc]);
      repeat (apply andb_true_iff in Hc as [? ?]);
      repeat match goal with
             | H : (_ <=? _)%N = true |- _ => apply N.leb_le in H
             | H : (_ =? _)%N = true |- _ => apply N.eqb_eq in H
             end;
      repeat match goal with
             | |- context [(?x <=? ?y)%N] => destruct (N.leb_spec x y)
             | |- context [(?x =? ?y)%N] => destruct (N.eqb_spec x y)
             end; cbn; try done; lia. }
  assert (Hall : Forall (fun c => is_linebreak c = false)
                   (report_fallback_text uid q a)).
  { unfold report_fallback_text, USER_LINE.
    repeat (apply Forall_app; split); try done;
      repeat constructor. }
  split; [exact Hall|].
  unfold splitlines. rewrite splitlines_from_unbroken by done. done.
Qed.

Lemma fallback_file_is_one_line_witness :
  splitlines (report_fallback_text 1 (py "q") (py "a"))
  = [report_fallback_text 1 (py "q") (py "a")].
Proof.
  apply (proj2 (fallback_file_is_one_line 1%Z (py "q") (py "a")
           ltac:(repeat constructor) ltac:(repeat constructor))).
Defined.

(** ** The new-case command *)

Lemma py_split_from_words (s : pystr) :
  ∀ cur, Forall (fun c => is_space c = false) cur →
         Forall is_word (py_split_from cur s).
Proof.
  assert (Hrev : ∀ x cur, Forall (fun c => is_space c = false) (x :: cur) →
                          is_word (rev (x :: cur))).
  { intros x cur Hc. split; [|by apply Forall_rev].
    intros E. apply (f_equal length) in E. rewrite length_rev in E. done. }
  induction s as [|c s IH]; intros cur Hcur.
  - cbn. destruct cur; [constructor|]. constructor; [by apply Hrev|constructor].
  - cbn [py_split_from]. destruct (is_space c) eqn:Hc.
    + destruct cur as [|x cur]; [by apply IH|].
      constructor; [by apply Hrev | by apply IH].
    + apply IH. by constructor.
Qed.

Lemma py_split_from_word (w : pystr) :
  ∀ cur s, Forall (fun c => is_space c = false) w →
           py_split_from cur (w ++ s) = py_split_from (rev w ++ cur) s.
Proof.
  induction w as [|c w IH]; intros cur s Hw; [done|].
  inversion Hw as [|? ? Hc Hw']; subst.
  cbn [app py_split_from]. rewrite Hc, IH by done.
  cbn [rev]. by rewrite <- app_assoc.
Qed.

Lemma py_split_join (ws : list pystr) :
  Forall is_word ws → py_split (py_join (py " ") ws) = ws.
Proof.
  intros Hws. unfold py_split.
  induction Hws as [|w ws [Hne Hw] Hws IH]; [done|].
  cbn [py_join]. destruct ws as [|w2 ws'].
  - rewrite <- (app_nil_r w) at 1. rewrite py_split_from_word by done.
    rewrite app_nil_r. cbn [py_split_from].
    destruct (rev w) eqn:E.
    + apply (f_equal length) in E. rewrite length_rev in E.
      destruct w; [done | discriminate].
    + by rewrite <- E, rev_involutive.
  - rewrite py_split_from_word by done. rewrite app_nil_r.
    change (py " " ++ ?x) with (32%N :: x). cbn [py_split_from].
    change (is_space 32) with true. cbn match.
    destruct (rev w) eqn:E.
    + apply (f_equal length) in E. rewrite length_rev in E.
      destruct w; [done | discriminate].
    + rewrite <- E, rev_involutive. by rewrite IH.
Qed.

Lemma py_join_nonempty (sep : pystr) (w : pystr) (ws : list pystr) :
  w ≠ [] → py_join sep (w :: ws) ≠ [].
Proof.
  intros Hw. cbn [py_join]. destruct ws; [done|].
  destruct w; [done | discriminate].
Qed.

Lemma strip_fixed (t : pystr) :
  (∀ c r, t = c :: r → is_space c = false) →
  (∀ p c, t = p ++ [c] → is_space c = false) →
  strip t = t.
Proof.
  intros Hhead Hlast. unfold strip. rewrite (lstrip_fixed t Hhead).
  unfold rstrip. rewrite lstrip_fixed; [by rewrite rev_involutive|].
  intros c r Hr. apply (Hlast (rev r) c).
  by rewrite <- (rev_involutive t), Hr.
Qed.

Lemma py_join_head (ws : list pystr) :
  Forall is_word ws →
  ∀ c r, py_join (py " ") ws = c :: r → is_space c = false.
Proof.
  intros Hws c r. destruct Hws as [|w ws [Hne Hw] Hws]; [done|].
  destruct w as [|c0 w']; [done|]. inversion Hw; subst.
  cbn [py_join]. destruct ws; cbn; by intros [= <- _].
Qed.

Lemma py_join_last (ws : list pystr) :
  Forall is_word ws →
  ∀ p c, py_join (py " ") ws = p ++ [c] → is_space c = false.
Proof.
  intros Hws. induction Hws as [|w ws [Hne Hw] Hws IH]; intros p c Heq.
  - by destruct p.
  - cbn [py_join] in Heq. destruct ws as [|w2 ws'].
    + subst w. apply Forall_app in Hw as [_ Hc]. by inversion Hc.
    + inversion Hws as [|? ? [Hne2 _] _]; subst.
      pose proof (py_join_nonempty (py " ") w2 ws' Hne2) as Hj.
      destruct (exists_last Hj) as (q & c' & Hq).
      rewrite Hq, !app_assoc in Heq. apply app_inj_tail in Heq as [_ <-].
      by apply (IH q c').
Qed.

(** X15. The title of a new case is never empty. When the command text has
    words after the command word, the title is those words joined by single
    spaces, however much white space separated them: it has no white space
    at either end and splitting it gives the same words back. When the
    command comes alone the title is the default made of the current time
    in seconds. *)
Theorem newcase_title_is_the_words_after_the_command :
  ∀ (now : Z) (text : pystr),
    newcase_title now text ≠ []
    ∧ (1 < length (py_split text) →
       newcase_title now text = py_join (py " ") (tail (py_split text))
       ∧ py_split (newcase_title now text) = tail (py_split text)
       ∧ strip (newcase_title now text) = newcase_title now text)
    ∧ (length (py_split text) ≤ 1 →
       newcase_title now text = DEFAULT_TITLE now).
Proof.
  intros now text.
  pose proof (py_split_from_words text [] ltac:(constructor)) as Hwords.
  fold (py_split text) in Hwords.
  assert (Hmany : 1 < length (py_split text) →
            newcase_title now text = py_join (py " ") (tail (py_split text))
            ∧ py_join (py " ") (tail (py_split text)) ≠ []
            ∧ Forall is_word (tail (py_split text))).
  { intros Hlen. unfold newcase_title.
    destruct (Nat.ltb_spec 1 (length (py_split text))) as [_|]; [|lia].
    destruct (py_split text) as [|cmd [|w ws]]; cbn in Hlen; try lia.
    cbn [tail]. inversion Hwords as [|? ? _ Htl]; subst.
    inversion Htl as [|? ? [Hw _] _]; subst.
    pose proof (py_join_nonempty (py " ") w ws Hw) as Hne.
    destruct (py_join (py " ") (w :: ws)); done. }
  assert (Hfew : length (py_split text) ≤ 1 →
            newcase_title now text = DEFAULT_TITLE now).
  { intros Hlen. unfold newcase_title.
    destruct (Nat.ltb_spec 1 (length (py_split text))) as [|_]; [lia|done]. }
  split; [|split].
  - destruct (decide (1 < length (py_split text))) as [Hlen|Hlen].
    + destruct (Hmany Hlen) as (-> & Hne & _). exact Hne.
    + rewrite Hfew by lia. discriminate.
  - intros Hlen. destruct (Hmany Hlen) as (Heq & Hne & Htl).
    split; [exact Heq|]. rewrite Heq.
    pose proof (py_split_join _ Htl) as Hrt. split; [exact Hrt|].
    apply strip_fixed; [by apply py_join_head | by apply py_join_last].
  - exact Hfew.
Qed.

Lemma newcase_title_is_the_words_after_the_command_witness :
  newcase_title 5 (py "/newcase  Tai   nan xe ") = py "Tai nan xe"
  ∧ newcase_title 5 (py "/newcase ") = DEFAULT_TITLE 5.
Proof.
  split.
  - apply (proj1 (proj1 (proj2 (newcase_title_is_the_words_after_the_command
             5%Z (py "/newcase  Tai   nan xe "))) ltac:(vm_compute; lia))).
  - apply (proj2 (proj2 (newcase_title_is_the_words_after_the_command
             5%Z (py "/newcase "))) ltac:(vm_compute; lia)).
Defined.

(** X16. /newcase never touches the conversation state: the context store,
    the files and the inference requests are left as they were, so the case
    is not made part of any history. Without a database the one reply names
    the title and nothing is stored. With a database the row handed over
    carries the user id as text, the title, and empty description, media
    path and report path; if the session returns an id the one reply names
    that id and the title, and if it raises the user gets no reply at
    all. *)
Theorem newcase_replies_and_stores_a_bare_row :
  ∀ (e : CaseEnv) (w : World) (m : TextMsg),
    user_context (cmd_newcase e w m).1 = user_context w
    ∧ files (cmd_newcase e w m).1 = files w
    ∧ requests (cmd_newcase e w m).1 = requests w
    ∧ (SessionLocal e = None →
       (cmd_newcase e w m).2 = None
       ∧ outbox (cmd_newcase e w m).1
         = outbox w
           ++ [NEWCASE_LOCAL_REPLY
                 (newcase_title (case_time e) (t_text m))])
    ∧ (∀ session id,
         SessionLocal e = Some session →
         session (newcase_row e m) = Some id →
         (cmd_newcase e w m).2 = Some (id, newcase_row e m)
         ∧ outbox (cmd_newcase e w m).1
           = outbox w
             ++ [NEWCASE_DB_REPLY id
                   (newcase_title (case_time e) (t_text m))])
    ∧ (∀ session,
         SessionLocal e = Some session →
         session (newcase_row e m) = None →
         cmd_newcase e w m = (w, None)).
Proof.
  intros e w m. unfold cmd_newcase. fold (newcase_row e m).
  destruct (SessionLocal e) as [session|] eqn:Es.
  - destruct (session (newcase_row e m)) as [id|] eqn:Ei; cbn [fst snd].
    + split; [done|]. split; [done|]. split; [done|]. split; [done|]. split.
      * intros s' id' [= <-] Hid. rewrite Ei in Hid.
        injection Hid as <-. done.
      * intros s' [= <-] Hid. congruence.
    + split; [done|]. split; [done|]. split; [done|]. split; [done|]. split.
      * intros s' id' [= <-] Hid. congruence.
      * done.
  - cbn [fst snd]. split; [done|]. split; [done|]. split; [done|].
    split; [done|]. split; [done|]. done.
Qed.

Lemma newcase_replies_and_stores_a_bare_row_witness :
  outbox
    (cmd_newcase {| case_time := 5; case_utcnow := 5; SessionLocal := None |}
       initial_world {| t_uid := 1; t_text := py "/newcase xe" |}).1
  = [] ++ [NEWCASE_LOCAL_REPLY (newcase_title 5 (py "/newcase xe"))]
  ∧ (cmd_newcase
       {| case_time := 5; case_utcnow := 5;
          SessionLocal := Some (fun _ => Some 7%Z) |}
       initial_world {| t_uid := 1; t_text := py "/newcase xe" |}).2
    = Some (7%Z,
            newcase_row
              {| case_time := 5; case_utcnow := 5;
                 SessionLocal := Some (fun _ => Some 7%Z) |}
              {| t_uid := 1; t_text := py "/newcase xe" |})
  ∧ cmd_newcase
      {| case_time := 5; case_utcnow := 5;
         SessionLocal := Some (fun _ => None) |}
      initial_world {| t_uid := 1; t_text := py "/newcase xe" |}
    = (initial_world, None).
Proof.
  split; [|split].
  - apply (proj2 (proj1 (proj2 (proj2 (proj2
             (newcase_replies_and_stores_a_bare_row
                {| case_time := 5; case_utcnow := 5; SessionLocal := None |}
                initial_world {| t_uid := 1; t_text := py "/newcase xe" |}))))
             eq_refl)).
  - apply (proj1 (proj1 (proj2 (proj2 (proj2 (proj2
             (newcase_replies_and_stores_a_bare_row
                {| case_time := 5; case_utcnow := 5;
                   SessionLocal := Some (fun _ => Some 7%Z) |}
                initial_world {| t_uid := 1; t_text := py "/newcase xe" |})))))
             (fun _ => Some 7%Z) 7%Z eq_refl eq_refl)).
  - apply (proj2 (proj2 (proj2 (proj2 (proj2
             (newcase_replies_and_stores_a_bare_row
                {| case_time := 5; case_utcnow := 5;
                   SessionLocal := Some (fun _ => None) |}
                initial_world {| t_uid := 1; t_text := py "/newcase xe" |})))))
             (fun _ => None) eq_refl eq_refl).
Defined.

Lemma handle_event_requests lower (w : World) (ev : event) :
  requests (handle_event lower w ev)
  = requests w
    ++ match ev with
       | EvText _ m => [request_payload w m]
       | _ => []
       end.
Proof.
  destruct ev as [uid | e m | e m | e m | e m]; cbn [handle_event].
  - by rewrite app_nil_r.
  - rewrite app_nil_r. unfold cmd_newcase.
    destruct (SessionLocal e) as [session|]; [|done].
    by destruct (session _).
  - rewrite app_nil_r. unfold handle_photo.
    destruct (get_file e (p_file_id m)) as [path|]; [|done].
    destruct (makedirs e (MEDIA_DIR e)); [|done].
    destruct (download_file e path _); [|done].
    by destruct (reply_ok e PHOTO_SAVED_REPLY).
  - rewrite app_nil_r. unfold handle_document.
    destruct (get_file e (d_file_id m)) as [path|]; [|done].
    destruct (makedirs e (MEDIA_DIR e)); [|done].
    destruct (download_file e path _); [|done].
    destruct (reply_ok e (DOC_SAVED_REPLY _)); [|done].
    destruct (d_file_name m) as [fname|]; [|done].
    destruct (endswith _ _); [|done].
    by destruct (reply_ok e PDF_PARSE_REPLY).
  - apply handle_text_requests.
Qed.

(** X17. The inference service is asked once for every text update and
    never for anything else: after any sequence of updates the number of
    requests sent has grown by the number of text updates in it, whether
    the calls succeeded or not (no retry), and the requests sent before
    are still the first ones on record. *)
Theorem one_request_per_text :
  ∀ lower (evs : list event) (w : World),
    length (requests (run_events lower w evs))
    = length (requests w) + count_texts evs
    ∧ ∃ sent, requests (run_events lower w evs) = requests w ++ sent.
Proof.
  intros lower evs. induction evs as [|ev evs IH]; intros w.
  - cbn. split; [lia|]. exists []. by rewrite app_nil_r.
  - cbn [run_events fold_left].
    destruct (IH (handle_event lower w ev)) as [Hlen [sent Hsent]].
    unfold run_events in Hlen, Hsent.
    rewrite Hlen, Hsent, handle_event_requests. split.
    + rewrite length_app. unfold count_texts.
      destruct ev; cbn; lia.
    + rewrite <- app_assoc. eauto.
Qed.
